(** * FordSupportChat: session lifecycle and message exchange

    A shallow embedding of the React component [FordSupportChat]
    (src/FordSupportChat.jsx): its state hooks, [startChatSession],
    [sendMessage], [handleChatKeyDown] and the parts of the render function
    that enable or disable the controls.

    JavaScript strings are sequences of UTF-16 code units, message ids are
    the integers returned by [Date.now()] plus a small offset, and everything
    the component obtains from its surroundings (clock readings, locale time
    strings, the behaviour of [fetch] and of the response stream) is an
    explicit input of the model. *)

From Stdlib Require Import String Ascii DecimalString.
From Stdlib.Strings Require Import Byte.
From Stdlib Require Import List ZArith NArith Lia Bool Sorted.
Import ListNotations.

Set Implicit Arguments.
Set Warnings "-register-all".

(* ===================================================================== *)
(** ** The platform: strings, values, the UTF-8 stream decoder            *)
(* ===================================================================== *)

Module JS.

Local Open Scope N_scope.

(** A string is a list of UTF-16 code units. *)
Definition jsstring := list N.

(** An ASCII literal of the source as a JavaScript string. *)
Definition lit (s : string) : jsstring :=
  map N_of_ascii (list_ascii_of_string s).

(** [Number.prototype.toString] on a non-negative integer. *)
Definition number_toString (n : N) : jsstring :=
  lit (NilZero.string_of_uint (N.to_uint n)).

(** WhiteSpace and LineTerminator code points of ECMAScript, the ones
    [String.prototype.trim] removes. *)
Definition is_white_space (c : N) : bool :=
  ((9 <=? c) && (c <=? 13)               (* TAB LF VT FF CR *)
   || (c =? 32) || (c =? 160)            (* SPACE, NBSP *)
   || (c =? 5760)                        (* U+1680 *)
   || ((8192 <=? c) && (c <=? 8202))     (* U+2000 .. U+200A *)
   || (c =? 8232) || (c =? 8233)         (* U+2028, U+2029 *)
   || (c =? 8239) || (c =? 8287)         (* U+202F, U+205F *)
   || (c =? 12288) || (c =? 65279))%N.   (* U+3000, U+FEFF *)

Fixpoint trimStart (s : jsstring) : jsstring :=
  match s with
  | [] => []
  | c :: r => if is_white_space c then trimStart r else s
  end.

Definition trimEnd (s : jsstring) : jsstring := rev (trimStart (rev s)).

(** [s.trim()] *)
Definition trim (s : jsstring) : jsstring := trimEnd (trimStart s).

(** [s.startsWith(p)] *)
Fixpoint startsWith (p s : jsstring) : bool :=
  match p, s with
  | [], _ => true
  | _ :: _, [] => false
  | a :: p', b :: s' => (a =? b)%N && startsWith p' s'
  end.

(** [s.substring(n)], one argument: from index [n] to the end. *)
Definition substring (n : nat) (s : jsstring) : jsstring := skipn n s.

(** A string used as a condition: the empty string is falsy. *)
Definition nonempty (s : jsstring) : bool :=
  match s with [] => false | _ :: _ => true end.

(** Values that can come out of [response.json()] and end up in the
    [sessionId] hook.  Numbers are kept as integers: only their being zero
    or not is ever looked at. *)
Inductive jsval :=
| JUndefined
| JNull
| JBool (b : bool)
| JNumber (z : Z)
| JString (s : jsstring)
| JArray (items : list jsval)
| JObject (fields : list (jsstring * jsval)).

(** ToBoolean. *)
Definition truthy (v : jsval) : bool :=
  match v with
  | JUndefined | JNull => false
  | JBool b => b
  | JNumber z => negb (z =? 0)%Z
  | JString s => nonempty s
  | JArray _ | JObject _ => true
  end.

Definition jsstring_eqb (a b : jsstring) : bool :=
  if list_eq_dec N.eq_dec a b then true else false.

Fixpoint lookup_field (k : jsstring) (fs : list (jsstring * jsval)) : jsval :=
  match fs with
  | [] => JUndefined
  | (k', v) :: r => if jsstring_eqb k k' then v else lookup_field k r
  end.

(** A thrown [Error]; handlers of the component read only [error.message]. *)
Record js_error := Error { message : jsstring }.

(** How a call ends: it returns, or it throws. *)
Inductive completion (A : Type) :=
| Normal (a : A)
| Throw (e : js_error).
Arguments Normal {A} a.
Arguments Throw {A} e.

(** [v.k]: a [TypeError] on [null] and [undefined] (its text is the
    engine's), [undefined] when the property is missing. *)
Definition get_property (type_error : jsstring) (v : jsval) (k : jsstring)
  : completion jsval :=
  match v with
  | JUndefined | JNull => Throw (Error type_error)
  | JObject fs => Normal (lookup_field k fs)
  | _ => Normal JUndefined
  end.

(** *** [new TextDecoder('utf-8')] used with [{stream: true}]

    The decoder of the Encoding Standard: a byte-driven state machine whose
    state survives from one [decode] call to the next. *)
Record utf8_state := Utf8 {
  code_point : N;
  bytes_seen : N;
  bytes_needed : N;
  lower_boundary : N;
  upper_boundary : N
}.

Definition utf8_reset : utf8_state := Utf8 0 0 0 128 191.

Inductive handler_result :=
| Continue
| Emit (cp : N)
| DecodeError
| DecodeErrorRestore.   (* error, and the byte is put back on the queue *)

Definition in_range (lo hi b : N) : bool := ((lo <=? b) && (b <=? hi))%N.

Definition utf8_handler (st : utf8_state) (b : N) : utf8_state * handler_result :=
  if (bytes_needed st =? 0)%N then
    if in_range 0 127 b then (st, Emit b)
    else if in_range 194 223 b then
      (Utf8 (N.land b 31) (bytes_seen st) 1 (lower_boundary st) (upper_boundary st),
       Continue)
    else if in_range 224 239 b then
      (Utf8 (N.land b 15) (bytes_seen st) 2
            (if (b =? 224)%N then 160 else lower_boundary st)
            (if (b =? 237)%N then 159 else upper_boundary st),
       Continue)
    else if in_range 240 244 b then
      (Utf8 (N.land b 7) (bytes_seen st) 3
            (if (b =? 240)%N then 144 else lower_boundary st)
            (if (b =? 244)%N then 143 else upper_boundary st),
       Continue)
    else (st, DecodeError)
  else if negb (in_range (lower_boundary st) (upper_boundary st) b) then
    (utf8_reset, DecodeErrorRestore)
  else
    let cp := N.lor (N.shiftl (code_point st) 6) (N.land b 63) in
    let seen := (bytes_seen st + 1)%N in
    if (seen =? bytes_needed st)%N then (utf8_reset, Emit cp)
    else (Utf8 cp seen (bytes_needed st) 128 191, Continue).

Definition emitted (r : handler_result) : list N :=
  match r with
  | Continue => []
  | Emit cp => [cp]
  | DecodeError | DecodeErrorRestore => [65533]
  end.

(** One byte through the handler; a restored byte is handled again, in the
    reset state, where it cannot be restored a second time. *)
Definition utf8_byte (st : utf8_state) (b : N) : utf8_state * list N :=
  match utf8_handler st b with
  | (st', DecodeErrorRestore) =>
      let (st'', r) := utf8_handler st' b in (st'', 65533 :: emitted r)
  | (st', r) => (st', emitted r)
  end.

(** A scalar value as UTF-16. *)
Definition utf16 (cp : N) : jsstring :=
  if (cp <? 65536)%N then [cp]
  else let c := (cp - 65536)%N in
       [(55296 + N.shiftr c 10)%N; (56320 + N.land c 1023)%N].

Record TextDecoder := Decoder { machine : utf8_state; bom_seen : bool }.

Definition new_TextDecoder : TextDecoder := Decoder utf8_reset false.

(** Serialising the scalar values of one call: the first one of the stream
    is dropped when it is the byte order mark. *)
Fixpoint serialize (seen : bool) (cps : list N) : bool * jsstring :=
  match cps with
  | [] => (seen, [])
  | cp :: r =>
      if negb seen && (cp =? 65279)%N then serialize true r
      else let (seen', s) := serialize true r in (seen', utf16 cp ++ s)
  end.

Definition decode_byte (d : TextDecoder) (b : byte) : TextDecoder * jsstring :=
  let (m, cps) := utf8_byte (machine d) (Byte.to_N b) in
  let (seen, s) := serialize (bom_seen d) cps in
  (Decoder m seen, s).

(** [decoder.decode(value, {stream: true})] *)
Fixpoint decode (d : TextDecoder) (value : list byte) : TextDecoder * jsstring :=
  match value with
  | [] => (d, [])
  | b :: r =>
      let (d1, s1) := decode_byte d b in
      let (d2, s2) := decode d1 r in
      (d2, s1 ++ s2)
  end.

End JS.

Import JS.

(* ===================================================================== *)
(** ** The component's data                                               *)
(* ===================================================================== *)

Inductive sender_kind := user | bot.

(** An element of the [messages] array.  [isStreaming] and [isError] are
    absent from some of the object literals, hence optional. *)
Record chat_message := Message {
  id : Z;
  text : jsstring;
  sender : sender_kind;
  timestamp : jsstring;
  isStreaming : option bool;
  isError : option bool
}.

(** The state hooks of the component. *)
Record hooks := Hooks {
  messages : list chat_message;
  inputMessage : jsstring;
  isSending : bool;
  isConnecting : bool;
  sessionId : jsval
}.

(** [useState([])], [useState('')], [useState(false)] twice, [useState(null)]. *)
Definition initial_hooks : hooks := Hooks [] [] false false JNull.

Inductive request :=
| PostSessionStart
| PostMessage (session : jsval) (body_message : jsstring).

(** What the component does to its surroundings. *)
Inductive effect :=
| Fetch (r : request)
| Alert (notice : jsstring)
| ConsoleError (label detail : jsstring)
| ConsoleWarn (label detail : jsstring)
| PreventDefault
| ScrollIntoView.

Record world := World { ui : hooks; log : list effect }.

Definition initial_world : world := World initial_hooks [].

(** *** What a request meets *)

Inductive stream_end :=
| EndOfStream                       (* [read()] resolves with [done: true] *)
| ReadFails (reason : js_error).    (* [read()] rejects *)

(** The reader of a body: the chunks it delivers, then how it ends.  A body
    that never ends is not represented: [sendMessage] then never returns. *)
Record reader := Reader { chunks : list (list byte); ending : stream_end }.

Record response := Response {
  status : N;
  text_result : completion jsstring;   (* what [response.text()] settles to *)
  json_result : completion jsval;      (* what [response.json()] settles to *)
  body : option reader                 (* [response.body], possibly [null] *)
}.

(** [response.ok] *)
Definition ok (r : response) : bool := in_range 200 299 (status r).

(** The surroundings of one [startChatSession] call. *)
Record start_env := StartEnv {
  start_fetch : completion response;   (* [fetch] resolves or rejects *)
  start_type_error : jsstring;         (* the engine's TypeError text *)
  now_greeting : Z;                    (* [Date.now()] *)
  time_greeting : jsstring             (* [toLocaleTimeString()] *)
}.

(** The surroundings of one [sendMessage] call, in the order they are used. *)
Record send_env := SendEnv {
  now_user : Z;
  time_user : jsstring;
  now_placeholder : Z;
  time_placeholder : jsstring;
  send_fetch : completion response;
  send_type_error : jsstring;
  now_error : Z;
  time_error : jsstring
}.

Record key_event := KeyEvent {
  key : jsstring;
  shiftKey : bool;
  ctrlKey : bool;
  altKey : bool;
  metaKey : bool
}.

(* ===================================================================== *)
(** ** State, effects and exceptions                                      *)
(* ===================================================================== *)

Definition M (A : Type) : Type := world -> completion A * world.

Definition ret {A} (a : A) : M A := fun w => (Normal a, w).

Definition bind {A B} (c : M A) (k : A -> M B) : M B :=
  fun w => match c w with
           | (Normal a, w') => k a w'
           | (Throw e, w') => (Throw e, w')
           end.

Notation "x <- c ;; k" := (bind c (fun x => k))
  (at level 61, c at next level, right associativity).
Notation "c ;; k" := (bind c (fun _ => k))
  (at level 61, right associativity).

Definition throw {A} (e : js_error) : M A := fun w => (Throw e, w).

(** [await p] for a promise whose outcome is known. *)
Definition await {A} (p : completion A) : M A := fun w => (p, w).

(** [try { body } catch (error) { handler } finally { final }] *)
Definition try_catch_finally {A} (body : M A) (handler : js_error -> M A)
  (final : M unit) : M A :=
  fun w =>
    let (r, w1) := match body w with
                   | (Normal a, w') => (Normal a, w')
                   | (Throw e, w') => handler e w'
                   end in
    match final w1 with
    | (Normal _, w2) => (r, w2)
    | (Throw e, w2) => (Throw e, w2)
    end.

(** The world a call leaves behind. *)
Definition exec {A} (c : M A) (w : world) : world := snd (c w).

Definition get_hooks : M hooks := fun w => (Normal (ui w), w).

Definition perform (e : effect) : M unit :=
  fun w => (Normal tt, World (ui w) (log w ++ [e])).

Definition update (f : hooks -> hooks) : M unit :=
  fun w => (Normal tt, World (f (ui w)) (log w)).

Definition setMessages (f : list chat_message -> list chat_message) : M unit :=
  update (fun h => Hooks (f (messages h)) (inputMessage h) (isSending h)
                         (isConnecting h) (sessionId h)).

Definition setInputMessage (v : jsstring) : M unit :=
  update (fun h => Hooks (messages h) v (isSending h) (isConnecting h)
                         (sessionId h)).

Definition setIsSending (b : bool) : M unit :=
  update (fun h => Hooks (messages h) (inputMessage h) b (isConnecting h)
                         (sessionId h)).

Definition setIsConnecting (b : bool) : M unit :=
  update (fun h => Hooks (messages h) (inputMessage h) (isSending h) b
                         (sessionId h)).

Definition setSessionId (v : jsval) : M unit :=
  update (fun h => Hooks (messages h) (inputMessage h) (isSending h)
                         (isConnecting h) v).

(** [await fetch(...)] *)
Definition fetch (r : request) (outcome : completion response) : M response :=
  perform (Fetch r) ;; await outcome.

(* ===================================================================== *)
(** ** The component's functions                                          *)
(* ===================================================================== *)

(** [new Error(`HTTP error! status: ${response.status}, message: ${errorText}`)] *)
Definition http_error (r : response) (errorText : jsstring) : js_error :=
  Error (lit "HTTP error! status: " ++ number_toString (status r)
         ++ lit ", message: " ++ errorText).

(** [if (!response.ok) { const errorText = await response.text(); throw ... }] *)
Definition check_ok (r : response) : M unit :=
  if negb (ok r) then
    errorText <- await (text_result r) ;;
    throw (http_error r errorText)
  else ret tt.

Definition greeting : jsstring :=
  lit "Welcome! I'm your Ford Customer Support assistant. How can I help?".

Definition startChatSession (env : start_env) : M unit :=
  setIsConnecting true ;;
  try_catch_finally
    (response <- fetch PostSessionStart (start_fetch env) ;;
     check_ok response ;;
     data <- await (json_result response) ;;
     session_id <- await (get_property (start_type_error env) data
                                       (lit "session_id")) ;;
     setSessionId session_id ;;
     setMessages (fun _ =>
       [Message (now_greeting env) greeting bot (time_greeting env) None None]))
    (fun error =>
       perform (ConsoleError (lit "Failed to start chat session:")
                             (message error)) ;;
       perform (Alert (lit "Failed to start chat session. Please ensure the backend is running. Error: "
                       ++ message error)) ;;
       setSessionId JNull)
    (setIsConnecting false).

(** [response.body.getReader()] *)
Definition getReader (type_error : jsstring) (r : response) : M reader :=
  match body r with
  | Some rd => ret rd
  | None => throw (Error type_error)
  end.

(** The loop [while (true) { const {done, value} = await reader.read();
    if (done) break; buffer += decoder.decode(value, {stream: true}); }],
    by recursion on the chunks still to come. *)
Fixpoint read_loop (decoder : TextDecoder) (buffer : jsstring)
  (pending : list (list byte)) (e : stream_end) : completion jsstring :=
  match pending with
  | [] => match e with
          | EndOfStream => Normal buffer
          | ReadFails reason => Throw reason
          end
  | value :: rest =>
      let (decoder', s) := decode decoder value in
      read_loop decoder' (buffer ++ s) rest e
  end.

(** [{...msg, text: content, isStreaming: false}] *)
Definition with_reply (content : jsstring) (msg : chat_message) : chat_message :=
  Message (id msg) content (sender msg) (timestamp msg) (Some false)
          (isError msg).

(** [{...msg, text: t, isError: true, isStreaming: false}] *)
Definition with_failure (t : jsstring) (msg : chat_message) : chat_message :=
  Message (id msg) t (sender msg) (timestamp msg) (Some false) (Some true).

(** [prevMsgs.map(msg => (msg.id === pid) ? f(msg) : msg)] *)
Definition map_by_id (pid : Z) (f : chat_message -> chat_message)
  (prevMsgs : list chat_message) : list chat_message :=
  map (fun msg => if (id msg =? pid)%Z then f msg else msg) prevMsgs.

Definition malformed_text : jsstring :=
  lit "Error: Received malformed response from server.".

Definition no_response_text : jsstring := lit "No response from server.".

(** [`Something went wrong: ${error.message}. Please try again.`] *)
Definition went_wrong_text (error : js_error) : jsstring :=
  lit "Something went wrong: " ++ message error ++ lit ". Please try again.".

(** The updater of the [catch] block. *)
Definition replace_placeholder (pid : Z) (env : send_env) (error : js_error)
  (prev : list chat_message) : list chat_message :=
  let newMessages := filter (fun msg => negb (id msg =? pid)%Z) prev in
  newMessages ++ [Message (now_error env + 2) (went_wrong_text error) bot
                          (time_error env) None (Some true)].

Definition userMessage (env : send_env) (h : hooks) : chat_message :=
  Message (now_user env) (inputMessage h) user (time_user env) None None.

Definition botMessagePlaceholderId (env : send_env) : Z :=
  (now_placeholder env + 1)%Z.

Definition placeholder (env : send_env) : chat_message :=
  Message (botMessagePlaceholderId env) [] bot (time_placeholder env)
          (Some true) None.

(** [sendMessage] up to its first [await]: the guard, the user's message,
    the cleared input, the latch and the placeholder.  It returns what the
    rest of the function keeps in local variables, or nothing after the
    early [return]. *)
Definition sendMessage_prologue (env : send_env) : M (option (jsstring * jsval)) :=
  h <- get_hooks ;;
  if negb (nonempty (trim (inputMessage h))) || negb (truthy (sessionId h))
  then ret None
  else
    setMessages (fun prev => prev ++ [userMessage env h]) ;;
    let currentInput := inputMessage h in
    setInputMessage [] ;;
    setIsSending true ;;
    setMessages (fun prev => prev ++ [placeholder env]) ;;
    ret (Some (currentInput, sessionId h)).

(** The [try] block of [sendMessage]. *)
Definition sendMessage_try (env : send_env) (currentInput : jsstring)
  (session : jsval) : M unit :=
  let pid := botMessagePlaceholderId env in
  response <- fetch (PostMessage session currentInput) (send_fetch env) ;;
  check_ok response ;;
  reader <- getReader (send_type_error env) response ;;
  buffer <- await (read_loop new_TextDecoder [] (chunks reader) (ending reader)) ;;
  let messageBlock := trim buffer in
  if startsWith (lit "data:") messageBlock then
    let content := trim (substring 5 messageBlock) in
    setMessages (map_by_id pid (with_reply content))
  else if nonempty messageBlock then
    perform (ConsoleWarn
               (lit "Frontend: Unprocessed, non-data content left in buffer:")
               (lit "[" ++ messageBlock ++ lit "]")) ;;
    setMessages (map_by_id pid (with_failure malformed_text))
  else
    setMessages (map_by_id pid (with_failure no_response_text)).

(** [sendMessage] from its first [await] on: [try], [catch], [finally]. *)
Definition sendMessage_exchange (env : send_env) (currentInput : jsstring)
  (session : jsval) : M unit :=
  try_catch_finally
    (sendMessage_try env currentInput session)
    (fun error =>
       perform (ConsoleError (lit "Frontend: Chat error:") (message error)) ;;
       setMessages (replace_placeholder (botMessagePlaceholderId env) env error))
    (setIsSending false ;; perform ScrollIntoView).

Definition sendMessage (env : send_env) : M unit :=
  locals <- sendMessage_prologue env ;;
  match locals with
  | None => ret tt
  | Some (currentInput, session) => sendMessage_exchange env currentInput session
  end.

(** The condition under which the key handler and the button let a send
    through: [inputMessage.trim() && !isSending]. *)
Definition input_ready (h : hooks) : bool :=
  nonempty (trim (inputMessage h)) && negb (isSending h).

Definition handleChatKeyDown (e : key_event) (env : send_env) : M unit :=
  if jsstring_eqb (key e) (lit "Enter") && negb (shiftKey e) then
    perform PreventDefault ;;
    h <- get_hooks ;;
    if input_ready h then sendMessage env else ret tt
  else ret tt.

(** *** What the render function lets the user do *)

Inductive action :=
| ClickConnect (env : start_env)            (* the connect button *)
| ChangeInput (value : jsstring)            (* [onChange] of the textarea *)
| PressKey (e : key_event) (env : send_env) (* [onKeyDown] of the textarea *)
| ClickSend (env : send_env).               (* the send button *)

(** [disabled={!inputMessage.trim() || isSending}] *)
Definition send_button_disabled (h : hooks) : bool :=
  negb (nonempty (trim (inputMessage h))) || isSending h.

(** The card with the connect button is rendered while [!sessionId], the
    chat box otherwise; a disabled control fires no event. *)
Definition dispatch (a : action) : M unit :=
  h <- get_hooks ;;
  if negb (truthy (sessionId h)) then
    match a with
    | ClickConnect env => if isConnecting h then ret tt else startChatSession env
    | _ => ret tt
    end
  else
    match a with
    | ClickConnect _ => ret tt
    | ChangeInput value => if isSending h then ret tt else setInputMessage value
    | PressKey e env => if isSending h then ret tt else handleChatKeyDown e env
    | ClickSend env => if send_button_disabled h then ret tt else sendMessage env
    end.

Fixpoint run (actions : list action) (w : world) : world :=
  match actions with
  | [] => w
  | a :: rest => run rest (exec (dispatch a) w)
  end.

(** *** How a message is shown

    [isError] selects the error style, [isStreaming] with an empty text the
    loader, [isStreaming] with some text the cursor. *)
Inductive message_state := Pending | Streaming | Complete | Failed.

Definition flag (o : option bool) : bool :=
  match o with Some true => true | _ => false end.

Definition state_of (msg : chat_message) : message_state :=
  if flag (isError msg) then Failed
  else if flag (isStreaming msg) then
         if nonempty (text msg) then Streaming else Pending
  else Complete.

(* ===================================================================== *)
(** ** Vocabulary for the statements                                      *)
(* ===================================================================== *)

(** The guard on the first line of [sendMessage]:
    [inputMessage.trim() && sessionId]. *)
Definition guard_passed (h : hooks) : bool :=
  nonempty (trim (inputMessage h)) && truthy (sessionId h).

(** What the stream decoder makes of a whole body. *)
Definition decoded (body_bytes : list byte) : jsstring :=
  snd (decode new_TextDecoder body_bytes).

(** How the network part of the [try] block ends: with the drained buffer,
    or with the error that reaches the [catch] block. *)
Definition drained (env : send_env) : completion jsstring :=
  match send_fetch env with
  | Throw reason => Throw reason
  | Normal r =>
      if negb (ok r) then
        match text_result r with
        | Normal errorText => Throw (http_error r errorText)
        | Throw reason => Throw reason
        end
      else
        match body r with
        | None => Throw (Error (send_type_error env))
        | Some rd => read_loop new_TextDecoder [] (chunks rd) (ending rd)
        end
  end.

(** The outcomes of the specification's Response Frame Parser. *)
Inductive outcome :=
| TransportError (detail : js_error)
| Success (payload : jsstring)
| MalformedResponse
| EmptyResponse.

(** The decision table in the specification's words: its input is the
    trimmed body and an optional request-level exception; the rows are
    tried in order. *)
Definition spec_parse (exception : option js_error) (trimmed_body : jsstring)
  : outcome :=
  match exception with
  | Some detail => TransportError detail
  | None =>
      if startsWith (lit "data:") trimmed_body
      then Success (trim (skipn 5 trimmed_body))
      else if nonempty trimmed_body then MalformedResponse
      else EmptyResponse
  end.

(** The parser's verdict on one exchange. *)
Definition classify (env : send_env) : outcome :=
  match drained env with
  | Throw reason => spec_parse (Some reason) []
  | Normal buffer => spec_parse None (trim buffer)
  end.

(** The [setMessages] updater that goes with each outcome. *)
Definition apply_outcome (env : send_env) (o : outcome)
  : list chat_message -> list chat_message :=
  let pid := botMessagePlaceholderId env in
  match o with
  | TransportError detail => replace_placeholder pid env detail
  | Success payload => map_by_id pid (with_reply payload)
  | MalformedResponse => map_by_id pid (with_failure malformed_text)
  | EmptyResponse => map_by_id pid (with_failure no_response_text)
  end.

(** What the exchange writes to the console. *)
Definition console_output (env : send_env) : list effect :=
  match drained env with
  | Throw reason => [ConsoleError (lit "Frontend: Chat error:") (message reason)]
  | Normal buffer =>
      match spec_parse None (trim buffer) with
      | MalformedResponse =>
          [ConsoleWarn
             (lit "Frontend: Unprocessed, non-data content left in buffer:")
             (lit "[" ++ trim buffer ++ lit "]")]
      | _ => []
      end
  end.

(** The number of message requests in a log. *)
Fixpoint posts (l : list effect) : nat :=
  match l with
  | [] => 0
  | Fetch (PostMessage _ _) :: r => S (posts r)
  | _ :: r => posts r
  end.

(** The number of session requests in a log. *)
Fixpoint session_requests (l : list effect) : nat :=
  match l with
  | [] => 0
  | Fetch PostSessionStart :: r => S (session_requests r)
  | _ :: r => session_requests r
  end.

Definition is_Enter (e : key_event) : bool := jsstring_eqb (key e) (lit "Enter").

(** The same surroundings, the body delivered in other chunks. *)
Definition with_chunks (env : send_env) (cs : list (list byte)) : send_env :=
  SendEnv (now_user env) (time_user env) (now_placeholder env)
          (time_placeholder env)
          (match send_fetch env with
           | Normal r =>
               Normal (Response (status r) (text_result r) (json_result r)
                         (match body r with
                          | Some rd => Some (Reader cs (ending rd))
                          | None => None
                          end))
           | Throw reason => Throw reason
           end)
          (send_type_error env) (now_error env) (time_error env).

(** *** The clock

    The [Date.now()] readings of an action, in the order of the source. *)
Definition readings (a : action) : list Z :=
  match a with
  | ClickConnect env => [now_greeting env]
  | ChangeInput _ => []
  | PressKey _ env | ClickSend env =>
      [now_user env; now_placeholder env; now_error env]
  end.

(** A clock that never runs backwards within an action and has advanced by
    at least three milliseconds since the last reading of the action
    before. *)
Fixpoint paced (last : Z) (actions : list action) : Prop :=
  match actions with
  | [] => True
  | a :: rest =>
      match a with
      | ClickConnect env =>
          (last + 3 <= now_greeting env)%Z /\ paced (now_greeting env) rest
      | ChangeInput _ => paced last rest
      | PressKey _ env | ClickSend env =>
          (last + 3 <= now_user env)%Z
          /\ (now_user env <= now_placeholder env)%Z
          /\ (now_placeholder env <= now_error env)%Z
          /\ paced (now_error env) rest
      end
  end.

Definition ids (l : list chat_message) : list Z := map id l.

(** The world at the first [await] of a [sendMessage] that passed its guard. *)
Definition begun (env : send_env) (w : world) : world :=
  World (Hooks (messages (ui w) ++ [userMessage env (ui w); placeholder env])
               [] true (isConnecting (ui w)) (sessionId (ui w)))
        (log w).

(** The world once the exchange is over. *)
Definition settled (env : send_env) (currentInput : jsstring) (session : jsval)
  (w : world) : world :=
  World (Hooks (apply_outcome env (classify env) (messages (ui w)))
               (inputMessage (ui w)) false (isConnecting (ui w))
               (sessionId (ui w)))
        (log w ++ Fetch (PostMessage session currentInput)
               :: console_output env ++ [ScrollIntoView]).

(** How the [try] block of [startChatSession] ends up to its first setter:
    with the value of [data.session_id], or with the error that reaches the
    [catch] block. *)
Definition session_reply (env : start_env) : completion jsval :=
  match start_fetch env with
  | Throw reason => Throw reason
  | Normal r =>
      if negb (ok r) then
        match text_result r with
        | Normal errorText => Throw (http_error r errorText)
        | Throw reason => Throw reason
        end
      else
        match json_result r with
        | Throw reason => Throw reason
        | Normal data =>
            get_property (start_type_error env) data (lit "session_id")
        end
  end.

Definition greeting_message (env : start_env) : chat_message :=
  Message (now_greeting env) greeting bot (time_greeting env) None None.

(** The notice of [startChatSession]'s [catch] block. *)
Definition start_failure_log (error : js_error) : list effect :=
  [Fetch PostSessionStart;
   ConsoleError (lit "Failed to start chat session:") (message error);
   Alert (lit "Failed to start chat session. Please ensure the backend is running. Error: "
          ++ message error)].

(** Ids strictly increasing in the order of the conversation. *)
Definition increasing (l : list chat_message) : Prop :=
  StronglySorted Z.lt (ids l).

(** Every id of the conversation is smaller than [t]. *)
Definition below (t : Z) (l : list chat_message) : Prop :=
  Forall (fun msg => (id msg < t)%Z) l.

(* ===================================================================== *)
(** ** Sample surroundings                                                *)
(* ===================================================================== *)

Definition bytes_of (s : string) : list byte :=
  map byte_of_ascii (list_ascii_of_string s).

(** A 200 response whose body arrives in the given chunks. *)
Definition streamed (cs : list (list byte)) (e : stream_end) : completion response :=
  Normal (Response 200 (Normal []) (Normal JNull) (Some (Reader cs e))).

(** A send whose three clock readings are [t1], [t2] and [t3]. *)
Definition send_at (t1 t2 t3 : Z) (f : completion response) : send_env :=
  SendEnv t1 (lit "10:00:00") t2 (lit "10:00:00") f
          (lit "Cannot read properties of null (reading 'getReader')")
          t3 (lit "10:00:01").

Definition failed_to_fetch : js_error := Error (lit "Failed to fetch").

Definition session_s1 : jsval := JString (lit "s1").

(** A connected client with [hello] typed in. *)
Definition typed_hello : world :=
  World (Hooks [] (lit "hello") false false session_s1) [].

(** A connected client showing one earlier exchange (ids 100 and 101), with
    [again] typed in. *)
Definition earlier_exchange : world :=
  World (Hooks [Message 100 (lit "hello") user (lit "09:59:58") None None;
                Message 101 (lit "Hi there") bot (lit "09:59:58") (Some false) None]
               (lit "again") false false session_s1) [].

Definition hi_there_env : send_env :=
  send_at 100 100 100 (streamed [bytes_of "data: Hi there"] EndOfStream).

(** A session request answered 200 with [{"session_id": "s1"}]. *)
Definition start_ok : start_env :=
  StartEnv (Normal (Response 200 (Normal [])
                      (Normal (JObject [(lit "session_id", session_s1)])) None))
           (lit "Cannot read properties of null (reading 'session_id')")
           50 (lit "09:59:00").

(** A session request answered 200 with a body that is not JSON. *)
Definition start_not_json : start_env :=
  StartEnv (Normal (Response 200 (Normal (lit "<html>"))
                      (Throw (Error (lit "Unexpected token '<'"))) None))
           (lit "Cannot read properties of null (reading 'session_id')")
           50 (lit "09:59:00").

Definition enter_key (shift ctrl : bool) : key_event :=
  KeyEvent (lit "Enter") shift ctrl false false.

(** Connect, send [a] (the request fails one millisecond later), then send
    [b] one millisecond after that. *)
Definition hasty_actions : list action :=
  [ClickConnect start_ok;
   ChangeInput (lit "a");
   ClickSend (send_at 100 100 101 (Throw failed_to_fetch));
   ChangeInput (lit "b");
   ClickSend (send_at 102 102 102 (streamed [bytes_of "data: ok"] EndOfStream))].

(** The same conversation at a human pace. *)
Definition unhurried_actions : list action :=
  [ClickConnect start_ok;
   ChangeInput (lit "a");
   ClickSend (send_at 1000 1000 1200 (Throw failed_to_fetch));
   ChangeInput (lit "b");
   ClickSend (send_at 5000 5000 5300 (streamed [bytes_of "data: ok"] EndOfStream))].

(** A send during which every clock reading is 100, answered [data: Sure]. *)
Definition frozen_clock_reply : send_env :=
  send_at 100 100 100 (streamed [bytes_of "data: Sure"] EndOfStream).

(** The same, the request failing. *)
Definition frozen_clock_failure : send_env :=
  send_at 100 100 100 (Throw failed_to_fetch).

Definition garbage_env : send_env :=
  send_at 100 100 100 (streamed [bytes_of "garbage"] EndOfStream).

(** [data: Hi there] delivered whole, and cut inside the marker. *)
Definition one_chunk : list (list byte) := [bytes_of "data: Hi there"].
Definition three_chunks : list (list byte) :=
  [bytes_of "da"; bytes_of "ta: Hi"; bytes_of " there"].

(* ===================================================================== *)
(** ** Further vocabulary: the rendered message, bodies, request logs     *)
(* ===================================================================== *)

(** [{msg.isStreaming && !msg.text && (<div className="loading-indicator">...)}] *)
Definition shows_loader (msg : chat_message) : bool :=
  flag (isStreaming msg) && negb (nonempty (text msg)).

(** [{msg.isStreaming && msg.text && <span className="blinking-cursor">}] *)
Definition shows_cursor (msg : chat_message) : bool :=
  flag (isStreaming msg) && nonempty (text msg).

(** [{!msg.isStreaming && msg.text && <div className="message-time">}] *)
Definition shows_time (msg : chat_message) : bool :=
  negb (flag (isStreaming msg)) && nonempty (text msg).

(** A string made of white space only (the empty string included). *)
Definition all_white (s : jsstring) : bool := forallb is_white_space s.

(** Bytes below 128, and the code units they decode to. *)
Definition is_ascii (bs : list byte) : bool :=
  forallb (fun b => (Byte.to_N b <? 128)%N) bs.

Definition code_units (bs : list byte) : jsstring := map Byte.to_N bs.

(** The first byte of a multi-byte UTF-8 sequence. *)
Definition is_lead_byte (b : byte) : bool := in_range 194 244 (Byte.to_N b).

(** The session ids of the message requests in a log, in order. *)
Fixpoint post_sessions (l : list effect) : list jsval :=
  match l with
  | [] => []
  | Fetch (PostMessage session _) :: r => session :: post_sessions r
  | _ :: r => post_sessions r
  end.

(** Nothing in flight: both latches released and no message streaming. *)
Definition quiet (h : hooks) : Prop :=
  isSending h = false /\ isConnecting h = false
  /\ Forall (fun msg => flag (isStreaming msg) = false) (messages h).

(** The world at the first [await] of [startChatSession]: the latch is set
    and the request issued. *)
Definition connecting (w : world) : world :=
  exec (setIsConnecting true ;; perform (Fetch PostSessionStart)) w.

(** The worlds the component passes through: the initial one; the world
    after an action has run to its end; the worlds where an asynchronous
    function is suspended at its first [await] ([startChatSession] called by
    the connect button, [sendMessage] called by whom ever); the world after
    [e.preventDefault()] in the key handler; and the world once the rest of
    a suspended [sendMessage] has run. *)
Inductive reachable : world -> Prop :=
| reach_initial : reachable initial_world
| reach_action (a : action) (w : world) :
    reachable w -> reachable (exec (dispatch a) w)
| reach_connecting (w : world) :
    reachable w -> truthy (sessionId (ui w)) = false ->
    isConnecting (ui w) = false -> reachable (connecting w)
| reach_prevented (w : world) :
    reachable w -> reachable (World (ui w) (log w ++ [PreventDefault]))
| reach_await (env : send_env) (w : world) :
    reachable w -> reachable (exec (sendMessage_prologue env) w)
| reach_settled (env : send_env) (currentInput : jsstring) (session : jsval)
    (w : world) :
    reachable w ->
    reachable (exec (sendMessage_exchange env currentInput session) w).

(** A connected client with [  hi  ] typed in. *)
Definition typed_padded : world :=
  World (Hooks [] (lit "  hi  ") false false session_s1) [].

(** A 204 answer: a success status and no body. *)
Definition no_content_env : send_env :=
  send_at 100 100 100 (Normal (Response 204 (Normal []) (Normal JNull) None)).

(** A session request that finds no backend. *)
Definition start_refused : start_env :=
  StartEnv (Throw failed_to_fetch)
           (lit "Cannot read properties of null (reading 'session_id')")
           40 (lit "09:58:00").

(** [data: Hi there] followed by a blank line, in three chunks. *)
Definition framed_chunks : list (list byte) :=
  [bytes_of "data"; bytes_of ": Hi the"; bytes_of "re" ++ [x0a; x0a]].

(** Two exchanges after connecting, at a human pace. *)
Definition two_sends : list action :=
  [ChangeInput (lit "a");
   ClickSend (send_at 1000 1000 1200 (Throw failed_to_fetch));
   ChangeInput (lit "b");
   PressKey (enter_key false false)
            (send_at 5000 5000 5300 (streamed [bytes_of "data: ok"] EndOfStream))].

(** A connected client with only spaces typed in. *)
Definition typed_spaces : world :=
  World (Hooks [] (lit "   ") false false session_s1) [].

(** Connect, then type [a]. *)
Definition connect_and_type : list action :=
  [ClickConnect start_ok; ChangeInput (lit "a")].

(** A message request answered 503 with the text [busy]. *)
Definition unavailable_env : send_env :=
  send_at 100 100 100
    (Normal (Response 503 (Normal (lit "busy")) (Normal JNull)
               (Some (Reader [bytes_of "data: ignored"] EndOfStream)))).

(** A client that is not connected. *)
Definition disconnected : world := initial_world.

(* ===================================================================== *)
(** ** Equations of the model                                            *)
(* ===================================================================== *)

Arguments lit : simpl never.
Arguments trim : simpl never.
Arguments number_toString : simpl never.

Lemma decode_app (d : TextDecoder) (a b : list byte) :
  decode d (a ++ b) =
  let (d1, s1) := decode d a in
  let (d2, s2) := decode d1 b in (d2, s1 ++ s2).
Proof.
  revert d. induction a as [|x a IH]; intros d; simpl.
  - destruct (decode d b); reflexivity.
  - destruct (decode_byte d x) as [d1 s1].
    rewrite IH.
    destruct (decode d1 a) as [d2 s2].
    destruct (decode d2 b) as [d3 s3].
    now rewrite app_assoc.
Qed.

Lemma read_loop_concat (cs : list (list byte)) (e : stream_end) :
  forall d buffer,
    read_loop d buffer cs e =
    match e with
    | EndOfStream => Normal (buffer ++ snd (decode d (concat cs)))
    | ReadFails reason => Throw reason
    end.
Proof.
  induction cs as [|value rest IH]; intros d buffer; simpl.
  - destruct e; [now rewrite app_nil_r | reflexivity].
  - destruct (decode d value) as [d1 s1] eqn:E1.
    rewrite IH. destruct e; [|reflexivity].
    rewrite decode_app, E1.
    destruct (decode d1 (concat rest)) as [d2 s2]; simpl.
    now rewrite app_assoc.
Qed.

Lemma sendMessage_prologue_eq (env : send_env) (w : world) :
  sendMessage_prologue env w =
  if guard_passed (ui w)
  then (Normal (Some (inputMessage (ui w), sessionId (ui w))), begun env w)
  else (Normal None, w).
Proof.
  unfold sendMessage_prologue, guard_passed, bind, get_hooks.
  destruct (nonempty (trim (inputMessage (ui w)))); simpl;
    [destruct (truthy (sessionId (ui w))); simpl|]; try reflexivity.
  unfold ret, begun. now rewrite <- app_assoc.
Qed.

(** Logs that differ only in how their appends are nested. *)
Ltac same_log := rewrite <- ?app_assoc; reflexivity.

Lemma sendMessage_exchange_eq (env : send_env) (currentInput : jsstring)
  (session : jsval) (w : world) :
  sendMessage_exchange env currentInput session w =
  (Normal tt, settled env currentInput session w).
Proof.
  unfold sendMessage_exchange, try_catch_finally, sendMessage_try, settled,
    classify, console_output, drained, fetch, check_ok, getReader, bind,
    perform, await, throw, ret, setMessages, setIsSending, update,
    apply_outcome, spec_parse.
  cbn.
  destruct (send_fetch env) as [r|reason]; cbn.
  2:{ same_log. }
  destruct (ok r); cbn.
  2:{ destruct (text_result r); cbn; same_log. }
  destruct (body r) as [rd|]; cbn.
  2:{ same_log. }
  destruct (read_loop new_TextDecoder [] (chunks rd) (ending rd)) as [buffer|reason];
    cbn.
  2:{ same_log. }
  destruct (startsWith (lit "data:") (trim buffer)); cbn.
  { same_log. }
  destruct (nonempty (trim buffer)); cbn.
  - same_log.
  - same_log.
Qed.

Lemma sendMessage_eq (env : send_env) (w : world) :
  sendMessage env w =
  (Normal tt,
   if guard_passed (ui w)
   then settled env (inputMessage (ui w)) (sessionId (ui w)) (begun env w)
   else w).
Proof.
  unfold sendMessage, bind. rewrite sendMessage_prologue_eq.
  destruct (guard_passed (ui w)).
  - apply sendMessage_exchange_eq.
  - reflexivity.
Qed.

Lemma exec_sendMessage (env : send_env) (w : world) :
  exec (sendMessage env) w =
  if guard_passed (ui w)
  then settled env (inputMessage (ui w)) (sessionId (ui w)) (begun env w)
  else w.
Proof. unfold exec. now rewrite sendMessage_eq. Qed.

Lemma exec_prologue (env : send_env) (w : world) :
  exec (sendMessage_prologue env) w = if guard_passed (ui w) then begun env w else w.
Proof.
  unfold exec. rewrite sendMessage_prologue_eq. now destruct (guard_passed (ui w)).
Qed.

(** *** A send that passed its guard *)

Section PastTheGuard.

Variable env : send_env.
Variable w : world.
Hypothesis passed : guard_passed (ui w) = true.

Lemma session_is_set : truthy (sessionId (ui w)) = true.
Proof. unfold guard_passed in passed. now apply andb_prop in passed. Qed.

Lemma world_after_send :
  exec (sendMessage env) w =
  settled env (inputMessage (ui w)) (sessionId (ui w)) (begun env w).
Proof. now rewrite exec_sendMessage, passed. Qed.

Lemma world_at_await : exec (sendMessage_prologue env) w = begun env w.
Proof. now rewrite exec_prologue, passed. Qed.

Lemma conversation_after_send :
  messages (ui (exec (sendMessage env) w)) =
  apply_outcome env (classify env)
    (messages (ui w) ++ [userMessage env (ui w); placeholder env]).
Proof. now rewrite world_after_send. Qed.

Lemma conversation_at_await :
  messages (ui (exec (sendMessage_prologue env) w)) =
  messages (ui w) ++ [userMessage env (ui w); placeholder env].
Proof. now rewrite world_at_await. Qed.

End PastTheGuard.

(** *** Updating by id *)

Lemma length_map_by_id pid f l : length (map_by_id pid f l) = length l.
Proof. apply length_map. Qed.

Lemma nth_error_map_by_id pid f l i :
  nth_error (map_by_id pid f l) i =
  option_map (fun msg => if (id msg =? pid)%Z then f msg else msg) (nth_error l i).
Proof. apply nth_error_map. Qed.

Lemma map_by_id_hit pid f l i m :
  nth_error l i = Some m -> id m = pid ->
  nth_error (map_by_id pid f l) i = Some (f m).
Proof.
  intros H E. rewrite nth_error_map_by_id, H. simpl.
  now rewrite (proj2 (Z.eqb_eq _ _) E).
Qed.

Lemma map_by_id_miss pid f l i m :
  nth_error l i = Some m -> id m <> pid ->
  nth_error (map_by_id pid f l) i = Some m.
Proof.
  intros H E. rewrite nth_error_map_by_id, H. simpl.
  now rewrite (proj2 (Z.eqb_neq _ _) E).
Qed.

Lemma nth_error_placeholder (old : list chat_message) (u p : chat_message) :
  nth_error (old ++ [u; p]) (S (length old)) = Some p.
Proof.
  rewrite nth_error_app2 by lia.
  replace (S (length old) - length old)%nat with 1%nat by lia. reflexivity.
Qed.

(** X15: the [try]/[catch] of a send that passed the guard follows the
    decision table, its first row read as the code has it: whatever throws
    inside the [try] block ([fetch] rejecting, a status outside 200..299,
    [response.text()] rejecting, [response.body] being [null], [read()]
    rejecting) gives [TransportError]; otherwise a trimmed buffer starting
    with [data:] gives [Success] with the trimmed rest as payload, any other
    non-empty trimmed buffer [MalformedResponse], an empty one
    [EmptyResponse]; and the conversation is updated as that outcome
    prescribes. *)
Theorem decision_table_followed (env : send_env) (w : world) :
  guard_passed (ui w) = true ->
  let pending := messages (ui w) ++ [userMessage env (ui w); placeholder env] in
  let conversation := messages (ui (exec (sendMessage env) w)) in
  match drained env with
  | Throw detail =>
      conversation = apply_outcome env (spec_parse (Some detail) []) pending
      /\ spec_parse (Some detail) [] = TransportError detail
  | Normal buffer =>
      conversation = apply_outcome env (spec_parse None (trim buffer)) pending
      /\ spec_parse None (trim buffer) =
         if startsWith (lit "data:") (trim buffer)
         then Success (trim (substring 5 (trim buffer)))
         else if nonempty (trim buffer) then MalformedResponse
              else EmptyResponse
  end.
Proof.
  intros A pending conversation. subst pending conversation.
  rewrite (conversation_after_send env w A). unfold classify.
  destruct (drained env) as [buffer|detail]; split; reflexivity.
Qed.

Lemma decision_table_followed_witness :
  guard_passed (ui typed_hello) = true /\
  messages (ui (exec (sendMessage hi_there_env) typed_hello)) =
  apply_outcome hi_there_env (Success (lit "Hi there"))
    [userMessage hi_there_env (ui typed_hello); placeholder hi_there_env].
Proof.
  split; [reflexivity|].
  exact (proj1 (decision_table_followed hi_there_env typed_hello eq_refl)).
Defined.

(** *** The parser's verdicts *)

Lemma classify_transport env detail :
  drained env = Throw detail -> classify env = TransportError detail.
Proof. unfold classify. now intros ->. Qed.

Lemma classify_success env buffer :
  drained env = Normal buffer ->
  startsWith (lit "data:") (trim buffer) = true ->
  classify env = Success (trim (substring 5 (trim buffer))).
Proof. unfold classify, spec_parse. now intros -> ->. Qed.

Lemma classify_malformed env buffer :
  drained env = Normal buffer ->
  startsWith (lit "data:") (trim buffer) = false ->
  nonempty (trim buffer) = true ->
  classify env = MalformedResponse.
Proof. unfold classify, spec_parse. now intros -> -> ->. Qed.

Lemma classify_empty env buffer :
  drained env = Normal buffer ->
  startsWith (lit "data:") (trim buffer) = false ->
  nonempty (trim buffer) = false ->
  classify env = EmptyResponse.
Proof. unfold classify, spec_parse. now intros -> -> ->. Qed.

(** C2, as stated, fails: with the clock reading 100 throughout, the
    placeholder gets the id 101 of the earlier reply, and the successful
    send overwrites the text of that earlier message as well. *)
Lemma C2_counterexample :
  guard_passed (ui earlier_exchange) = true /\
  drained frozen_clock_reply = Normal (lit "data: Sure") /\
  exists i m,
    i <> S (length (messages (ui earlier_exchange))) /\
    nth_error (messages (ui (exec (sendMessage_prologue frozen_clock_reply)
                                  earlier_exchange))) i = Some m /\
    nth_error (messages (ui (exec (sendMessage frozen_clock_reply)
                                  earlier_exchange))) i <> Some m.
Proof.
  split; [reflexivity|]. split; [reflexivity|].
  exists 1%nat, (Message 101 (lit "Hi there") bot (lit "09:59:58") (Some false) None).
  split; [discriminate|]. split; [reflexivity|].
  vm_compute. discriminate.
Qed.

(** C2, amended: when the drained, trimmed body begins with [data:], the
    placeholder is rewritten where it stands: the conversation keeps its
    length, the placeholder's position holds a message with the same id,
    the payload as text and state Complete, and every message whose id
    differs from the placeholder's is unchanged. *)
Theorem C2_reply_in_place (env : send_env) (w : world) (buffer : jsstring) :
  guard_passed (ui w) = true ->
  drained env = Normal buffer ->
  startsWith (lit "data:") (trim buffer) = true ->
  let pid := botMessagePlaceholderId env in
  let payload := trim (substring 5 (trim buffer)) in
  let before := messages (ui (exec (sendMessage_prologue env) w)) in
  let after := messages (ui (exec (sendMessage env) w)) in
  let position := S (length (messages (ui w))) in
  nth_error before position = Some (placeholder env)
  /\ state_of (placeholder env) = Pending
  /\ length after = length before
  /\ nth_error after position = Some (with_reply payload (placeholder env))
  /\ id (with_reply payload (placeholder env)) = id (placeholder env)
  /\ text (with_reply payload (placeholder env)) = payload
  /\ state_of (with_reply payload (placeholder env)) = Complete
  /\ (forall i m, nth_error before i = Some m -> id m <> pid ->
                  nth_error after i = Some m).
Proof.
  intros A D B pid payload before after position.
  subst before after.
  rewrite (conversation_at_await env w A), (conversation_after_send env w A).
  rewrite (classify_success env D B). unfold apply_outcome. fold pid payload.
  assert (P : nth_error (messages (ui w) ++ [userMessage env (ui w); placeholder env])
                        position = Some (placeholder env))
    by apply nth_error_placeholder.
  repeat split; try reflexivity.
  - exact P.
  - apply length_map_by_id.
  - eapply map_by_id_hit; [exact P | reflexivity].
  - intros i m H N. now apply map_by_id_miss.
Qed.

Lemma C2_reply_in_place_witness :
  guard_passed (ui typed_hello) = true /\
  drained hi_there_env = Normal (lit "data: Hi there") /\
  startsWith (lit "data:") (trim (lit "data: Hi there")) = true /\
  nth_error (messages (ui (exec (sendMessage hi_there_env) typed_hello))) 1 =
  Some (with_reply (lit "Hi there") (placeholder hi_there_env)).
Proof.
  split; [reflexivity|]. split; [reflexivity|]. split; [reflexivity|].
  exact (proj1 (proj2 (proj2 (proj2
    (C2_reply_in_place hi_there_env typed_hello (buffer := lit "data: Hi there")
       eq_refl eq_refl eq_refl))))).
Defined.

(** *** Removing by id *)


Lemma filter_keeps_others pid (l : list chat_message) :
  ~ In pid (ids l) -> filter (fun msg => negb (id msg =? pid)%Z) l = l.
Proof.
  unfold ids. induction l as [|m l IH]; simpl; intros H; [reflexivity|].
  destruct (Z.eqb_spec (id m) pid) as [E|E]; simpl.
  - exfalso. apply H. now left.
  - f_equal. apply IH. intros I. apply H. now right.
Qed.

Lemma replace_placeholder_eq (env : send_env) detail (old : list chat_message) :
  replace_placeholder (botMessagePlaceholderId env) env detail
    (old ++ [placeholder env]) =
  filter (fun msg => negb (id msg =? botMessagePlaceholderId env)%Z) old
  ++ [Message (now_error env + 2) (went_wrong_text detail) bot
              (time_error env) None (Some true)].
Proof.
  unfold replace_placeholder. rewrite filter_app. simpl.
  rewrite Z.eqb_refl. simpl. now rewrite app_nil_r.
Qed.




Lemma literals_differ : malformed_text <> no_response_text.
Proof. vm_compute. discriminate. Qed.

(** X16: when the answer had a body stream and it was drained to its end,
    and the buffer, trimmed, lacks the [data:] marker, the placeholder is
    rewritten where it stands, keeping its id and its position, into state
    Error: with the malformed-response text when the trimmed buffer is
    non-empty, with the different no-response text when it is empty. *)
Theorem bad_body_in_place (env : send_env) (w : world) (buffer : jsstring) :
  guard_passed (ui w) = true ->
  drained env = Normal buffer ->
  startsWith (lit "data:") (trim buffer) = false ->
  let before := messages (ui (exec (sendMessage_prologue env) w)) in
  let after := messages (ui (exec (sendMessage env) w)) in
  let position := S (length (messages (ui w))) in
  let shown := if nonempty (trim buffer) then malformed_text else no_response_text in
  nth_error before position = Some (placeholder env)
  /\ length after = length before
  /\ nth_error after position = Some (with_failure shown (placeholder env))
  /\ id (with_failure shown (placeholder env)) = id (placeholder env)
  /\ text (with_failure shown (placeholder env)) = shown
  /\ state_of (with_failure shown (placeholder env)) = Failed
  /\ malformed_text = lit "Error: Received malformed response from server."
  /\ no_response_text = lit "No response from server."
  /\ malformed_text <> no_response_text.
Proof.
  intros A D B before after position shown. subst before after.
  rewrite (conversation_at_await env w A), (conversation_after_send env w A).
  assert (P : nth_error (messages (ui w) ++ [userMessage env (ui w); placeholder env])
                        position = Some (placeholder env))
    by apply nth_error_placeholder.
  assert (C : apply_outcome env (classify env)
              = map_by_id (botMessagePlaceholderId env) (with_failure shown)).
  { subst shown. destruct (nonempty (trim buffer)) eqn:N.
    - now rewrite (classify_malformed env D B N).
    - now rewrite (classify_empty env D B N). }
  rewrite C.
  repeat split; try reflexivity.
  - exact P.
  - apply length_map_by_id.
  - eapply map_by_id_hit; [exact P | reflexivity].
  - exact literals_differ.
Qed.

Lemma bad_body_in_place_witness :
  guard_passed (ui typed_hello) = true /\
  drained garbage_env = Normal (lit "garbage") /\
  startsWith (lit "data:") (trim (lit "garbage")) = false /\
  nth_error (messages (ui (exec (sendMessage garbage_env) typed_hello))) 1 =
  Some (with_failure malformed_text (placeholder garbage_env)).
Proof.
  split; [reflexivity|]. split; [reflexivity|]. split; [reflexivity|].
  exact (proj1 (proj2 (proj2
    (bad_body_in_place garbage_env typed_hello (buffer := lit "garbage")
       eq_refl eq_refl eq_refl)))).
Defined.

(** *** The controls *)

Lemma handleChatKeyDown_eq (e : key_event) (env : send_env) (w : world) :
  handleChatKeyDown e env w =
  if is_Enter e && negb (shiftKey e) then
    if input_ready (ui w)
    then sendMessage env (World (ui w) (log w ++ [PreventDefault]))
    else (Normal tt, World (ui w) (log w ++ [PreventDefault]))
  else (Normal tt, w).
Proof.
  unfold handleChatKeyDown, is_Enter.
  destruct (jsstring_eqb (key e) (lit "Enter") && negb (shiftKey e));
    [|reflexivity].
  unfold bind, perform, get_hooks. cbn.
  now destruct (input_ready (ui w)).
Qed.

Lemma guard_refuses (h : hooks) :
  nonempty (trim (inputMessage h)) = false \/ truthy (sessionId h) = false ->
  guard_passed h = false.
Proof.
  unfold guard_passed. intros [-> | ->]; [reflexivity|]. apply andb_false_r.
Qed.

(** While a send is outstanding nothing the user does reaches the
    component: the textarea and the send button are disabled and the
    connect button is not rendered. *)
Lemma inert_while_sending (a : action) (w : world) :
  isSending (ui w) = true -> truthy (sessionId (ui w)) = true ->
  dispatch a w = (Normal tt, w).
Proof.
  intros S T. unfold dispatch, bind, get_hooks, send_button_disabled.
  rewrite T, S. simpl. destruct a; try reflexivity.
  now rewrite orb_true_r.
Qed.

(** While the session request is in flight only the connect button is
    rendered, and it is disabled. *)
Lemma inert_while_connecting (a : action) (w : world) :
  isConnecting (ui w) = true -> truthy (sessionId (ui w)) = false ->
  dispatch a w = (Normal tt, w).
Proof.
  intros C T. unfold dispatch, bind, get_hooks.
  rewrite T, C. simpl. now destruct a.
Qed.

Lemma run_while_sending (actions : list action) (w : world) :
  isSending (ui w) = true -> truthy (sessionId (ui w)) = true ->
  run actions w = w.
Proof.
  intros S T. induction actions as [|a rest IH]; simpl; [reflexivity|].
  unfold exec. now rewrite (inert_while_sending a w S T).
Qed.

(** In any world, with a blank input, or no session id, or the latch set,
    neither the send button nor a key press changes the hooks; and
    [sendMessage] returns at once, changing nothing, when the input is
    blank or no session id is set. *)
Lemma controls_refuse (env : send_env) (e : key_event) (w : world) :
  nonempty (trim (inputMessage (ui w))) = false
  \/ truthy (sessionId (ui w)) = false
  \/ isSending (ui w) = true ->
  exec (dispatch (ClickSend env)) w = w
  /\ ui (exec (dispatch (PressKey e env)) w) = ui w
  /\ ui (exec (handleChatKeyDown e env) w) = ui w
  /\ (nonempty (trim (inputMessage (ui w))) = false
      \/ truthy (sessionId (ui w)) = false ->
      sendMessage env w = (Normal tt, w)).
Proof.
  intros H.
  assert (K : ui (exec (handleChatKeyDown e env) w) = ui w).
  { unfold exec. rewrite handleChatKeyDown_eq.
    destruct (is_Enter e && negb (shiftKey e)); [|reflexivity].
    destruct (input_ready (ui w)) eqn:G; [|reflexivity].
    rewrite sendMessage_eq. simpl.
    rewrite guard_refuses; [reflexivity|].
    unfold input_ready in G. apply andb_prop in G. destruct G as [G1 G2].
    apply negb_true_iff in G2.
    destruct H as [H|[H|H]]; [congruence | now right | congruence]. }
  split; [|split; [|split]].
  - unfold exec, dispatch, bind, get_hooks, send_button_disabled.
    destruct (truthy (sessionId (ui w))) eqn:T; simpl; [|reflexivity].
    destruct H as [H|[H|H]]; [| discriminate |]; rewrite H; simpl;
      [reflexivity | now rewrite orb_true_r].
  - unfold exec, dispatch, bind, get_hooks.
    destruct (truthy (sessionId (ui w))) eqn:T; simpl; [|reflexivity].
    destruct (isSending (ui w)) eqn:S; [reflexivity|]. exact K.
  - exact K.
  - intros B. rewrite sendMessage_eq. now rewrite (guard_refuses _ B).
Qed.

(** *** Starting a session *)

Lemma startChatSession_eq (env : start_env) (w : world) :
  startChatSession env w =
  (Normal tt,
   match session_reply env with
   | Normal session_id =>
       World (Hooks [greeting_message env] (inputMessage (ui w))
                    (isSending (ui w)) false session_id)
             (log w ++ [Fetch PostSessionStart])
   | Throw error =>
       World (Hooks (messages (ui w)) (inputMessage (ui w))
                    (isSending (ui w)) false JNull)
             (log w ++ start_failure_log error)
   end).
Proof.
  unfold startChatSession, try_catch_finally, session_reply, fetch, check_ok,
    bind, perform, await, throw, ret, setMessages, setSessionId,
    setIsConnecting, update, start_failure_log, greeting_message.
  cbn.
  destruct (start_fetch env) as [r|reason]; cbn; [|same_log].
  destruct (ok r); cbn.
  2:{ destruct (text_result r); cbn; same_log. }
  destruct (json_result r) as [data|reason]; cbn; [|same_log].
  destruct (get_property (start_type_error env) data (lit "session_id"));
    cbn; [reflexivity|same_log].
Qed.

Lemma session_requests_app (l l' : list effect) :
  session_requests (l ++ l') = (session_requests l + session_requests l')%nat.
Proof.
  induction l as [|x l IH]; simpl; [reflexivity|].
  destruct x as [[|]| | | | |]; simpl; now rewrite IH.
Qed.

(** C6, as stated, fails: a 200 answer whose body is not JSON makes
    [response.json()] throw, and no session is established although the
    status was a success. *)
Lemma C6_counterexample :
  exists r,
    start_fetch start_not_json = Normal r /\ ok r = true /\
    truthy (sessionId (ui (exec (startChatSession start_not_json) initial_world)))
    = false.
Proof. eexists. split; [reflexivity|]. split; reflexivity. Qed.

(** C6, amended: [startChatSession] establishes a session exactly when the
    call answers with a 2xx status, the body parses as JSON and its
    [session_id] is truthy; the session id is then that value and the
    conversation is exactly one message, from the Bot, Complete, with the
    fixed greeting.  On a network error, on a non-2xx status and on a body
    that does not parse, the session id is [null], the conversation is left
    as it was, and the error is shown in an alert; in every case the
    request is issued once. *)
Theorem C6_session_start (env : start_env) (w : world) :
  let w' := exec (startChatSession env) w in
  let failed := fun error : js_error =>
    sessionId (ui w') = JNull
    /\ messages (ui w') = messages (ui w)
    /\ log w' = log w ++ start_failure_log error in
  (truthy (sessionId (ui w')) = true <->
   exists r data session_id,
     start_fetch env = Normal r /\ ok r = true
     /\ json_result r = Normal data
     /\ get_property (start_type_error env) data (lit "session_id")
        = Normal session_id
     /\ truthy session_id = true)
  /\ (forall r data session_id,
        start_fetch env = Normal r -> ok r = true ->
        json_result r = Normal data ->
        get_property (start_type_error env) data (lit "session_id")
        = Normal session_id ->
        truthy session_id = true ->
        sessionId (ui w') = session_id
        /\ messages (ui w') = [greeting_message env]
        /\ sender (greeting_message env) = bot
        /\ state_of (greeting_message env) = Complete
        /\ text (greeting_message env) = greeting
        /\ log w' = log w ++ [Fetch PostSessionStart])
  /\ (forall error, start_fetch env = Throw error -> failed error)
  /\ (forall r errorText,
        start_fetch env = Normal r -> ok r = false ->
        text_result r = Normal errorText -> failed (http_error r errorText))
  /\ (forall r error,
        start_fetch env = Normal r -> ok r = false ->
        text_result r = Throw error -> failed error)
  /\ (forall r error,
        start_fetch env = Normal r -> ok r = true ->
        json_result r = Throw error -> failed error)
  /\ session_requests (log w') = S (session_requests (log w))
  /\ isConnecting (ui w') = false.
Proof.
  intros w' failed.
  assert (E : w' = snd (startChatSession env w)) by reflexivity.
  rewrite startChatSession_eq in E. cbn [snd] in E.
  assert (F : forall error, session_reply env = Throw error -> failed error).
  { intros error R. subst failed. rewrite E, R. now cbn. }
  split; [|split; [|split; [|split; [|split; [|split; [|split]]]]]].
  - rewrite E. unfold session_reply.
    destruct (start_fetch env) as [r|reason]; [|now split; [|intros (?&?&?&?&_)]].
    destruct (ok r) eqn:O; cbn.
    2:{ split; [now destruct (text_result r)|].
        intros (r'&?&?&R&O'&_). congruence. }
    destruct (json_result r) as [data|reason] eqn:J0.
    2:{ split; [discriminate|]. intros (r'&?&?&R&_&J&_). congruence. }
    destruct (get_property (start_type_error env) data (lit "session_id"))
      as [v|reason] eqn:G; cbn.
    + split.
      * intros T. now exists r, data, v.
      * intros (r'&data'&v'&R&_&J&G'&T). congruence.
    + split; [discriminate|]. intros (r'&data'&v'&R&_&J&G'&_). congruence.
  - intros r data v R O J G T.
    assert (S : session_reply env = Normal v)
      by (unfold session_reply; now rewrite R, O, J).
    rewrite E, S. now cbn.
  - intros error R. apply F. unfold session_reply. now rewrite R.
  - intros r errorText R O X. apply F. unfold session_reply. now rewrite R, O, X.
  - intros r error R O X. apply F. unfold session_reply. now rewrite R, O, X.
  - intros r error R O J. apply F. unfold session_reply. now rewrite R, O, J.
  - rewrite E.
    destruct (session_reply env); cbn; rewrite session_requests_app; cbn; lia.
  - rewrite E. now destruct (session_reply env).
Qed.

Lemma C6_session_start_witness :
  truthy (sessionId (ui (exec (startChatSession start_ok) initial_world))) = true
  /\ messages (ui (exec (startChatSession start_ok) initial_world))
     = [greeting_message start_ok].
Proof.
  split; [reflexivity|].
  destruct (C6_session_start start_ok initial_world) as (_ & ok_row & _).
  exact (proj1 (proj2
    (ok_row _ _ session_s1 eq_refl eq_refl eq_refl eq_refl eq_refl))).
Defined.

(** *** Draining the body *)

Lemma drained_with_chunks (env : send_env) (cs : list (list byte)) :
  drained (with_chunks env cs) =
  match send_fetch env with
  | Throw reason => Throw reason
  | Normal r =>
      if negb (ok r) then
        match text_result r with
        | Normal errorText => Throw (http_error r errorText)
        | Throw reason => Throw reason
        end
      else
        match body r with
        | None => Throw (Error (send_type_error env))
        | Some rd =>
            match ending rd with
            | EndOfStream => Normal (decoded (concat cs))
            | ReadFails reason => Throw reason
            end
        end
  end.
Proof.
  unfold drained, with_chunks. cbn.
  destruct (send_fetch env) as [r|reason]; [|reflexivity].
  unfold ok. cbn. destruct (negb (in_range 200 299 (status r))).
  - destruct (text_result r); reflexivity.
  - destruct (body r) as [rd|]; [|reflexivity]. cbn.
    rewrite read_loop_concat. destruct (ending rd); reflexivity.
Qed.

Lemma settled_ext (env1 env2 : send_env) currentInput session (w : world) :
  drained env1 = drained env2 ->
  now_placeholder env1 = now_placeholder env2 ->
  now_error env1 = now_error env2 ->
  time_error env1 = time_error env2 ->
  settled env1 currentInput session w = settled env2 currentInput session w.
Proof.
  intros D P N T.
  unfold settled, classify, console_output, apply_outcome,
    botMessagePlaceholderId, replace_placeholder.
  now rewrite D, P, N, T.
Qed.

(** C7: the result of a send depends on the chunks of the body only through
    their concatenation; and when the stream fails before signalling its
    end, whatever was buffered is not looked at: the send ends as a
    transport failure with the reader's error. *)
Theorem C7_chunking_irrelevant (env : send_env) (w : world)
  (cs1 cs2 : list (list byte)) :
  concat cs1 = concat cs2 ->
  sendMessage (with_chunks env cs1) w = sendMessage (with_chunks env cs2) w
  /\ (forall r rd reason,
        send_fetch env = Normal r -> ok r = true -> body r = Some rd ->
        ending rd = ReadFails reason ->
        classify (with_chunks env cs1) = TransportError reason).
Proof.
  intros C. split.
  - rewrite !sendMessage_eq. f_equal.
    destruct (guard_passed (ui w)); [|reflexivity].
    apply settled_ext; try reflexivity.
    rewrite !drained_with_chunks. now rewrite C.
  - intros r rd reason F O B E. apply classify_transport.
    rewrite drained_with_chunks, F, O, B, E. reflexivity.
Qed.

Lemma C7_chunking_irrelevant_witness :
  concat one_chunk = concat three_chunks /\
  sendMessage (with_chunks hi_there_env one_chunk) typed_hello =
  sendMessage (with_chunks hi_there_env three_chunks) typed_hello.
Proof.
  split; [reflexivity|].
  exact (proj1 (C7_chunking_irrelevant hi_there_env typed_hello
                  one_chunk three_chunks eq_refl)).
Defined.

(** *** Counting requests *)

Lemma posts_app (l l' : list effect) :
  posts (l ++ l') = (posts l + posts l')%nat.
Proof.
  induction l as [|x l IH]; simpl; [reflexivity|].
  destruct x as [[|]| | | | |]; simpl; now rewrite IH.
Qed.

Lemma posts_console_output (env : send_env) : posts (console_output env) = 0%nat.
Proof.
  unfold console_output. destruct (drained env) as [buffer|reason]; [|reflexivity].
  now destruct (spec_parse None (trim buffer)).
Qed.

Lemma posts_sendMessage (env : send_env) (w : world) :
  posts (log (exec (sendMessage env) w)) =
  (posts (log w) + if guard_passed (ui w) then 1 else 0)%nat.
Proof.
  rewrite exec_sendMessage. destruct (guard_passed (ui w)); [|lia].
  unfold settled. cbn [log begun].
  rewrite posts_app. cbn [posts]. rewrite posts_app, posts_console_output.
  reflexivity.
Qed.

(** C8, as stated, fails: Control+Enter is an Enter key press with a
    modifier, and it sends. *)
Lemma C8_counterexample :
  ctrlKey (enter_key false true) = true /\
  posts (log typed_hello) = 0%nat /\
  posts (log (exec (handleChatKeyDown (enter_key false true) hi_there_env)
                   typed_hello)) = 1%nat.
Proof. repeat split. Qed.

(** C8, amended: an Enter key press without Shift (whatever the other
    modifiers) cancels the key's default action and calls [sendMessage]
    exactly when the input is non-blank and no send is outstanding, so that,
    a session being set, one request is issued exactly then; an Enter key
    press with Shift, like any other key, calls nothing and leaves the
    default action (the line break) to the textarea. *)
Theorem C8_enter_key (e : key_event) (env : send_env) (w : world) :
  let prevented := World (ui w) (log w ++ [PreventDefault]) in
  (is_Enter e = true -> shiftKey e = false ->
   handleChatKeyDown e env w =
     (if input_ready (ui w) then sendMessage env prevented else (Normal tt, prevented))
   /\ posts (log (exec (handleChatKeyDown e env) w)) =
      (posts (log w)
       + if input_ready (ui w) && truthy (sessionId (ui w)) then 1 else 0)%nat)
  /\ (is_Enter e = false \/ shiftKey e = true ->
      handleChatKeyDown e env w = (Normal tt, w)).
Proof.
  intros prevented. split.
  - intros K S. rewrite (handleChatKeyDown_eq e env w), K, S. cbn [negb andb].
    split; [reflexivity|].
    unfold exec. rewrite (handleChatKeyDown_eq e env w), K, S. cbn [negb andb].
    destruct (input_ready (ui w)) eqn:G.
    + pose proof (posts_sendMessage env prevented) as P.
      unfold exec in P. subst prevented. rewrite P.
      cbn [ui log]. rewrite posts_app. cbn [posts].
      unfold guard_passed, input_ready in *. apply andb_prop in G. destruct G as [-> _].
      cbn [andb]. lia.
    + subst prevented. cbn. rewrite posts_app. cbn. lia.
  - intros H. rewrite handleChatKeyDown_eq.
    destruct H as [-> | ->]; [reflexivity|]. now rewrite andb_false_r.
Qed.

Lemma C8_enter_key_witness :
  is_Enter (enter_key false false) = true /\
  shiftKey (enter_key false false) = false /\
  posts (log (exec (handleChatKeyDown (enter_key false false) hi_there_env)
                   typed_hello)) = 1%nat /\
  handleChatKeyDown (enter_key true false) hi_there_env typed_hello
  = (Normal tt, typed_hello).
Proof.
  destruct (C8_enter_key (enter_key false false) hi_there_env typed_hello)
    as [plain _].
  destruct (C8_enter_key (enter_key true false) hi_there_env typed_hello)
    as [_ shifted].
  split; [reflexivity|]. split; [reflexivity|]. split.
  - exact (proj2 (plain eq_refl eq_refl)).
  - exact (shifted (or_intror eq_refl)).
Defined.

(** *** Ids in the conversation *)

Lemma below_mono (t t' : Z) (l : list chat_message) :
  (t <= t')%Z -> below t l -> below t' l.
Proof.
  intros L. unfold below. apply Forall_impl. intros m H. lia.
Qed.

Lemma below_filter (t : Z) (p : chat_message -> bool) (l : list chat_message) :
  below t l -> below t (filter p l).
Proof.
  unfold below. rewrite !Forall_forall. intros H m I.
  apply filter_In in I. now apply H.
Qed.

Lemma below_snoc (t : Z) (l : list chat_message) (m : chat_message) :
  below t l -> (id m < t)%Z -> below t (l ++ [m]).
Proof.
  intros H L. apply Forall_app. split; [exact H|]. now constructor.
Qed.

Lemma increasing_snoc (l : list chat_message) (m : chat_message) :
  increasing l -> below (id m) l -> increasing (l ++ [m]).
Proof.
  unfold increasing, below, ids. induction l as [|x l IH]; simpl; intros S B.
  - constructor; constructor.
  - inversion S as [|? ? S' F]; subst. inversion B as [|? ? Bx B']; subst.
    constructor; [now apply IH|].
    rewrite map_app. apply Forall_app. split; [exact F|].
    constructor; [exact Bx | constructor].
Qed.

Lemma increasing_filter (p : chat_message -> bool) (l : list chat_message) :
  increasing l -> increasing (filter p l).
Proof.
  unfold increasing, ids. induction l as [|x l IH]; simpl; intros S;
    [constructor|].
  inversion S as [|? ? S' F]; subst.
  destruct (p x); [|now apply IH].
  simpl. constructor; [now apply IH|].
  rewrite Forall_forall in *. intros y I.
  apply F. apply in_map_iff in I. destruct I as [m [E I]].
  apply in_map_iff. exists m. split; [exact E|].
  apply filter_In in I. tauto.
Qed.

Lemma ids_map_by_id pid (f : chat_message -> chat_message) (l : list chat_message) :
  (forall msg, id (f msg) = id msg) -> ids (map_by_id pid f l) = ids l.
Proof.
  intros H. unfold ids, map_by_id. rewrite map_map. apply map_ext.
  intros m. destruct (id m =? pid)%Z; [apply H | reflexivity].
Qed.

Lemma below_ids (t : Z) (l l' : list chat_message) :
  ids l = ids l' -> below t l -> below t l'.
Proof.
  unfold below, ids. intros E H.
  apply Forall_map with (f := id) (P := fun x => (x < t)%Z).
  rewrite <- E. now apply Forall_map.
Qed.

Lemma increasing_NoDup (l : list chat_message) : increasing l -> NoDup (ids l).
Proof.
  unfold increasing. induction 1 as [|x xs S IH F]; constructor; [|exact IH].
  intros I. rewrite Forall_forall in F. specialize (F x I). lia.
Qed.

(** A send past the guard whose clock readings do not decrease and start above
    every id present leaves the ids increasing, all of them at most the
    last reading plus two. *)
Lemma send_keeps_increasing (env : send_env) (o : outcome)
  (old : list chat_message) (u : chat_message) :
  id u = now_user env ->
  increasing old -> below (now_user env) old ->
  (now_user env <= now_placeholder env)%Z ->
  (now_placeholder env <= now_error env)%Z ->
  increasing (apply_outcome env o (old ++ [u; placeholder env]))
  /\ below (now_error env + 3) (apply_outcome env o (old ++ [u; placeholder env])).
Proof.
  intros U S B L1 L2.
  set (pending := old ++ [u; placeholder env]).
  assert (SP : increasing (old ++ [u])).
  { apply increasing_snoc; [exact S | now rewrite U]. }
  assert (BP : below (now_placeholder env + 1) (old ++ [u])).
  { apply below_snoc; [|rewrite U; lia].
    apply (below_mono (t := now_user env)); [lia | exact B]. }
  assert (E : pending = (old ++ [u]) ++ [placeholder env])
    by (subst pending; now rewrite <- app_assoc).
  assert (S' : increasing pending).
  { rewrite E. apply increasing_snoc; [exact SP | exact BP]. }
  assert (B' : below (now_error env + 3) pending).
  { rewrite E. apply below_snoc.
    - apply (below_mono (t := (now_placeholder env + 1)%Z)); [lia | exact BP].
    - unfold placeholder, botMessagePlaceholderId. simpl. lia. }
  assert (M : forall f, (forall msg, id (f msg) = id msg) ->
            increasing (map_by_id (botMessagePlaceholderId env) f pending)
            /\ below (now_error env + 3)
                     (map_by_id (botMessagePlaceholderId env) f pending)).
  { intros f H. split.
    - unfold increasing. now rewrite (ids_map_by_id _ _ _ H).
    - apply (below_ids (l := pending)); [|exact B'].
      symmetry. now apply ids_map_by_id. }
  destruct o as [detail|payload| |]; unfold apply_outcome;
    try (apply M; intros msg; reflexivity).
  rewrite E, replace_placeholder_eq. split.
  - apply increasing_snoc; [now apply increasing_filter|].
    apply below_filter. simpl.
    apply (below_mono (t := (now_placeholder env + 1)%Z)); [lia | exact BP].
  - apply below_snoc; [|simpl; lia].
    apply below_filter.
    apply (below_mono (t := (now_placeholder env + 1)%Z)); [lia | exact BP].
Qed.

(** What an action can do to the conversation. *)
Lemma conversation_after_dispatch (a : action) (w : world) :
  messages (ui (exec (dispatch a) w)) = messages (ui w)
  \/ (exists env, a = ClickConnect env
        /\ messages (ui (exec (dispatch a) w)) = [greeting_message env])
  \/ (exists env, readings a = [now_user env; now_placeholder env; now_error env]
        /\ messages (ui (exec (dispatch a) w)) =
           apply_outcome env (classify env)
             (messages (ui w) ++ [userMessage env (ui w); placeholder env])).
Proof.
  unfold exec, dispatch, bind, get_hooks.
  destruct (negb (truthy (sessionId (ui w)))).
  - destruct a as [env| | |]; try (left; reflexivity).
    destruct (isConnecting (ui w)); [left; reflexivity|].
    rewrite startChatSession_eq. cbn [snd].
    destruct (session_reply env); [right; left; now exists env | now left].
  - destruct a as [env|value|e env|env]; [now left | | |].
    + destruct (isSending (ui w)); now left.
    + destruct (isSending (ui w)); [now left|].
      rewrite handleChatKeyDown_eq.
      destruct (is_Enter e && negb (shiftKey e)); [|now left].
      destruct (input_ready (ui w)); [|now left].
      rewrite sendMessage_eq. cbn [snd ui].
      destruct (guard_passed (ui w)); [|now left].
      right; right. exists env. split; reflexivity.
    + destruct (send_button_disabled (ui w)); [now left|].
      rewrite sendMessage_eq. cbn [snd].
      destruct (guard_passed (ui w)); [|now left].
      right; right. exists env. split; reflexivity.
Qed.

Lemma run_keeps_increasing (actions : list action) :
  forall (last : Z) (w : world),
    increasing (messages (ui w)) -> below (last + 3) (messages (ui w)) ->
    paced last actions ->
    increasing (messages (ui (run actions w))).
Proof.
  induction actions as [|a rest IH]; intros last w S B P; [exact S|].
  cbn [run].
  destruct (conversation_after_dispatch a w) as [E|[[env [A E]]|[env [R E]]]].
  - (* the conversation is untouched *)
    assert (exists last', (last <= last')%Z /\ paced last' rest) as [last' [L P']].
    { destruct a as [env|value|e env|env]; cbn [paced] in P.
      - exists (now_greeting env). split; [lia | tauto].
      - now exists last.
      - exists (now_error env). split; [lia | tauto].
      - exists (now_error env). split; [lia | tauto]. }
    apply (IH last'); rewrite ?E; [exact S | | exact P'].
    apply (below_mono (t := (last + 3)%Z)); [lia | exact B].
  - (* the greeting replaces it *)
    subst a. cbn [paced] in P. destruct P as [L P'].
    apply (IH (now_greeting env)); rewrite ?E; [| | exact P'].
    + unfold increasing. simpl. repeat constructor.
    + repeat constructor. simpl. lia.
  - (* a send went through *)
    assert ((last + 3 <= now_user env)%Z
            /\ (now_user env <= now_placeholder env)%Z
            /\ (now_placeholder env <= now_error env)%Z
            /\ paced (now_error env) rest) as (L0 & L1 & L2 & P').
    { destruct a as [env'|value|e env'|env']; cbn [readings] in R;
        try discriminate; injection R as R1 R2 R3; cbn [paced] in P;
        rewrite R1, R2, R3 in P; exact P. }
    destruct (send_keeps_increasing env (classify env)
                (old := messages (ui w)) (userMessage env (ui w)))
      as [S' B']; try assumption; try reflexivity.
    { apply (below_mono (t := (last + 3)%Z)); [lia | exact B]. }
    apply (IH (now_error env)); rewrite ?E; assumption.
Qed.

(** C9, as stated, fails: a request that fails at clock reading 101 leaves
    an Error message with id 103; a send started at reading 102 then gives
    its own messages the ids 102 and 103. *)
Lemma C9_counterexample :
  ids (messages (ui (run hasty_actions initial_world)))
  = [50; 100; 103; 102; 103]%Z
  /\ ~ NoDup (ids (messages (ui (run hasty_actions initial_world)))).
Proof.
  split; [reflexivity|].
  replace (ids (messages (ui (run hasty_actions initial_world))))
    with [50; 100; 103; 102; 103]%Z by reflexivity.
  intros H.
  inversion H as [|? ? _ H1]; subst. inversion H1 as [|? ? _ H2]; subst.
  inversion H2 as [|? ? N _]; subst. apply N. simpl. auto.
Qed.

(** C9, amended: when the clock never runs backwards within an action and
    has advanced by at least three milliseconds from the last reading of one
    action to the first reading of the next, the ids of every conversation
    the user can reach are strictly increasing in the order of the
    conversation, and so no two messages share an id. *)
Theorem C9_ids_increasing (last : Z) (actions : list action) :
  paced last actions ->
  StronglySorted Z.lt (ids (messages (ui (run actions initial_world))))
  /\ NoDup (ids (messages (ui (run actions initial_world)))).
Proof.
  intros P.
  assert (S : increasing (messages (ui (run actions initial_world)))).
  { apply (run_keeps_increasing actions last); [| | exact P].
    - constructor.
    - constructor. }
  split; [exact S | now apply increasing_NoDup].
Qed.

Lemma C9_ids_increasing_witness :
  paced 0 unhurried_actions /\
  StronglySorted Z.lt (ids (messages (ui (run unhurried_actions initial_world)))).
Proof.
  assert (P : paced 0 unhurried_actions) by (simpl; lia).
  split; [exact P|].
  exact (proj1 (C9_ids_increasing 0 unhurried_actions P)).
Defined.

(** C10: a [sendMessage] that passed its guard returns, whatever the outcome of the
    exchange, with the latch [isSending] released and the input text empty,
    also when the user acts on the page while the request is in flight; and
    once some non-blank text is typed, a send passes the guard again. *)
Theorem C10_latch_released (env : send_env) (w : world) :
  guard_passed (ui w) = true ->
  let w' := exec (sendMessage env) w in
  sendMessage env w = (Normal tt, w')
  /\ isSending (ui w') = false
  /\ inputMessage (ui w') = []
  /\ (forall in_flight : list action,
        let at_await := run in_flight (exec (sendMessage_prologue env) w) in
        exec (sendMessage_exchange env (inputMessage (ui w)) (sessionId (ui w)))
             at_await = w')
  /\ (forall value,
        nonempty (trim value) = true ->
        let typed := exec (dispatch (ChangeInput value)) w' in
        inputMessage (ui typed) = value
        /\ guard_passed (ui typed) = true
        /\ input_ready (ui typed) = true
        /\ send_button_disabled (ui typed) = false).
Proof.
  intros A w'.
  assert (E : w' = settled env (inputMessage (ui w)) (sessionId (ui w))
                     (begun env w))
    by exact (world_after_send env w A).
  assert (T : truthy (sessionId (ui w)) = true)
    by exact (session_is_set w A).
  split; [|split; [|split; [|split]]].
  - subst w'. unfold exec. now rewrite sendMessage_eq.
  - now rewrite E.
  - now rewrite E.
  - intros in_flight at_await. subst at_await.
    rewrite (world_at_await env w A).
    rewrite run_while_sending by (cbn; auto).
    unfold exec. now rewrite sendMessage_exchange_eq.
  - intros value V typed.
    assert (Y : typed = World (Hooks (messages (ui w')) value false
                                     (isConnecting (ui w')) (sessionId (ui w)))
                              (log w')).
    { subst typed. unfold exec, dispatch, bind, get_hooks, setInputMessage, update.
      rewrite E. cbn. now rewrite T. }
    rewrite Y. unfold guard_passed, input_ready, send_button_disabled. cbn.
    now rewrite V, T.
Qed.

Lemma C10_latch_released_witness :
  guard_passed (ui typed_hello) = true /\
  isSending (ui (exec (sendMessage frozen_clock_failure) typed_hello)) = false /\
  inputMessage (ui (exec (sendMessage frozen_clock_failure) typed_hello)) = [].
Proof.
  split; [reflexivity|].
  pose proof (C10_latch_released frozen_clock_failure typed_hello eq_refl) as H.
  cbv zeta in H. destruct H as (_ & S & I & _). exact (conj S I).
Defined.

(* ===================================================================== *)
(** ** Further properties of the component                                *)
(* ===================================================================== *)

Unset Implicit Arguments.

(** *** Trimming *)

Lemma trimStart_app (a b : jsstring) :
  trimStart (a ++ b) = if all_white a then trimStart b else trimStart a ++ b.
Proof.
  induction a as [|c a IH]; [reflexivity|]. cbn.
  destruct (is_white_space c); [exact IH | reflexivity].
Qed.

Lemma trimStart_nil_iff (s : jsstring) : trimStart s = [] <-> all_white s = true.
Proof.
  induction s as [|c s IH]; cbn; [tauto|].
  destruct (is_white_space c); [exact IH|]. split; discriminate.
Qed.

Lemma all_white_rev (s : jsstring) : all_white (rev s) = all_white s.
Proof.
  unfold all_white. induction s as [|c s IH]; [reflexivity|]. cbn.
  rewrite forallb_app, IH. cbn. rewrite andb_true_r. apply andb_comm.
Qed.

Lemma all_white_app (a b : jsstring) :
  all_white (a ++ b) = all_white a && all_white b.
Proof. apply forallb_app. Qed.

Lemma trimEnd_app (a b : jsstring) :
  trimEnd (a ++ b) = if all_white b then trimEnd a else a ++ trimEnd b.
Proof.
  unfold trimEnd. rewrite rev_app_distr, trimStart_app, all_white_rev.
  destruct (all_white b); [reflexivity|].
  now rewrite rev_app_distr, rev_involutive.
Qed.

Lemma trimEnd_nil_iff (s : jsstring) : trimEnd s = [] <-> all_white s = true.
Proof.
  unfold trimEnd. rewrite <- all_white_rev, <- trimStart_nil_iff.
  split; intros H.
  - apply (f_equal (@rev N)) in H. now rewrite rev_involutive in H.
  - now rewrite H.
Qed.

Lemma all_white_trimStart (s : jsstring) :
  all_white (trimStart s) = all_white s.
Proof.
  induction s as [|c s IH]; [reflexivity|]. cbn.
  destruct (is_white_space c) eqn:E; cbn; [exact IH | now rewrite E].
Qed.

(** A trimmed string is empty exactly when the string is white space. *)
Lemma trim_blank (s : jsstring) : nonempty (trim s) = negb (all_white s).
Proof.
  unfold trim.
  destruct (all_white s) eqn:W.
  - assert (E : trimEnd (trimStart s) = [])
      by (apply trimEnd_nil_iff; now rewrite all_white_trimStart).
    now rewrite E.
  - destruct (trimEnd (trimStart s)) eqn:E; [|reflexivity].
    apply trimEnd_nil_iff in E. rewrite all_white_trimStart in E. congruence.
Qed.

(** *** What is sent *)

(** X1: [sendMessage] issues a request exactly when the input holds a code
    unit that is not white space and a session id is set, and then exactly
    one; otherwise it returns at once and changes nothing. *)
Theorem X1_request_iff_text_and_session (env : send_env) (w : world) :
  posts (log (exec (sendMessage env) w)) =
  (posts (log w)
   + if negb (all_white (inputMessage (ui w))) && truthy (sessionId (ui w))
     then 1 else 0)%nat
  /\ (all_white (inputMessage (ui w)) = true
      \/ truthy (sessionId (ui w)) = false ->
      sendMessage env w = (Normal tt, w)).
Proof.
  split.
  - rewrite posts_sendMessage. unfold guard_passed. now rewrite trim_blank.
  - intros H. rewrite sendMessage_eq.
    rewrite guard_refuses; [reflexivity|].
    rewrite trim_blank. destruct H as [-> | ->]; auto.
Qed.

Lemma In_apply_outcome (env : send_env) (o : outcome) (m : chat_message)
  (l : list chat_message) :
  In m l -> id m <> botMessagePlaceholderId env ->
  In m (apply_outcome env o l).
Proof.
  intros I N.
  assert (M : forall f, In m (map_by_id (botMessagePlaceholderId env) f l)).
  { intros f. unfold map_by_id. apply in_map_iff. exists m. split; [|exact I].
    now rewrite (proj2 (Z.eqb_neq _ _) N). }
  destruct o; unfold apply_outcome; try apply M.
  unfold replace_placeholder. apply in_or_app. left.
  apply filter_In. split; [exact I|].
  now rewrite (proj2 (Z.eqb_neq _ _) N).
Qed.

(** X2: a send that passed the guard posts the input text as it was typed,
    not trimmed, under the session id of the call, and that same text is
    the text of the User message added to the conversation (the clock not
    having stepped back so as to give it the placeholder's id). *)
Theorem X2_typed_text_posted_and_shown (env : send_env) (w : world) :
  guard_passed (ui w) = true ->
  now_user env <> botMessagePlaceholderId env ->
  let w' := exec (sendMessage env) w in
  log w' = log w ++ Fetch (PostMessage (sessionId (ui w)) (inputMessage (ui w)))
                 :: console_output env ++ [ScrollIntoView]
  /\ In (userMessage env (ui w)) (messages (ui w'))
  /\ text (userMessage env (ui w)) = inputMessage (ui w)
  /\ sender (userMessage env (ui w)) = user
  /\ state_of (userMessage env (ui w)) = Complete.
Proof.
  intros A N w'. subst w'. rewrite (world_after_send env w A).
  repeat split.
  cbn [settled ui messages begun].
  apply In_apply_outcome; [|exact N].
  apply in_or_app. right. now left.
Qed.

Lemma X2_typed_text_posted_and_shown_witness :
  guard_passed (ui typed_padded) = true /\
  now_user hi_there_env <> botMessagePlaceholderId hi_there_env /\
  In (Message 100 (lit "  hi  ") user (lit "10:00:00") None None)
     (messages (ui (exec (sendMessage hi_there_env) typed_padded))).
Proof.
  assert (N : now_user hi_there_env <> botMessagePlaceholderId hi_there_env)
    by (vm_compute; discriminate).
  split; [reflexivity|]. split; [exact N|].
  exact (proj1 (proj2
    (X2_typed_text_posted_and_shown hi_there_env typed_padded eq_refl N))).
Defined.

Lemma X1_request_iff_text_and_session_witness :
  all_white (inputMessage (ui typed_spaces)) = true /\
  sendMessage hi_there_env typed_spaces = (Normal tt, typed_spaces).
Proof.
  split; [reflexivity|].
  exact (proj2 (X1_request_iff_text_and_session hi_there_env typed_spaces)
               (or_introl eq_refl)).
Defined.

(** *** Frames *)

Lemma trimStart_idem (s : jsstring) : trimStart (trimStart s) = trimStart s.
Proof.
  induction s as [|c s IH]; [reflexivity|]. cbn.
  destruct (is_white_space c) eqn:E; [exact IH|]. cbn. now rewrite E.
Qed.

Lemma trimEnd_idem (s : jsstring) : trimEnd (trimEnd s) = trimEnd s.
Proof. unfold trimEnd. now rewrite rev_involutive, trimStart_idem. Qed.

Lemma trimEnd_cons (c : N) (r : jsstring) :
  trimEnd (c :: r) =
  if all_white r then (if is_white_space c then [] else [c])
  else c :: trimEnd r.
Proof.
  change (c :: r) with ([c] ++ r). rewrite trimEnd_app.
  destruct (all_white r); [|reflexivity].
  unfold trimEnd. cbn. now destruct (is_white_space c).
Qed.

Lemma trimStart_trimEnd (s : jsstring) :
  trimStart (trimEnd s) = trimEnd (trimStart s).
Proof.
  induction s as [|c r IH]; [reflexivity|].
  rewrite trimEnd_cons. cbn [trimStart].
  destruct (is_white_space c) eqn:E.
  - destruct (all_white r) eqn:W.
    + cbn. symmetry. apply trimEnd_nil_iff. now rewrite all_white_trimStart.
    + cbn. rewrite E. exact IH.
  - rewrite trimEnd_cons.
    destruct (all_white r); cbn; rewrite ?E; reflexivity.
Qed.

Lemma trim_trimEnd (s : jsstring) : trim (trimEnd s) = trim s.
Proof. unfold trim. now rewrite trimStart_trimEnd, trimEnd_idem. Qed.

(** White space around a string does not survive [trim]. *)
Lemma trim_padded (a s b : jsstring) :
  all_white a = true -> all_white b = true -> trim (a ++ s ++ b) = trim s.
Proof.
  intros A B. unfold trim. rewrite trimStart_app, A, trimStart_app.
  destruct (all_white s) eqn:W.
  - rewrite (proj2 (trimStart_nil_iff b) B).
    symmetry. apply trimEnd_nil_iff. now rewrite all_white_trimStart.
  - now rewrite trimEnd_app, B.
Qed.

Lemma marker_units : lit "data:" = [100; 97; 116; 97; 58]%N.
Proof. reflexivity. Qed.

(** The body [data:<content>], white space allowed before the marker, after
    it and at the end: what the [try] block finds in it. *)
Lemma payload_of_frame (a b c content : jsstring) :
  all_white a = true -> all_white b = true -> all_white c = true ->
  trim content = content ->
  let buffer := a ++ lit "data:" ++ b ++ content ++ c in
  startsWith (lit "data:") (trim buffer) = true
  /\ trim (substring 5 (trim buffer)) = content.
Proof.
  intros A B C T buffer.
  assert (E : trim buffer = lit "data:" ++ trimEnd (b ++ content ++ c)).
  { subst buffer. unfold trim. rewrite trimStart_app, A.
    rewrite marker_units. cbn [app trimStart].
    change (is_white_space 100) with false. cbn iota.
    change (100 :: 97 :: 116 :: 97 :: 58 :: b ++ content ++ c)%N
      with ([100; 97; 116; 97; 58]%N ++ (b ++ content ++ c)).
    rewrite trimEnd_app.
    destruct (all_white (b ++ content ++ c)) eqn:W; [|reflexivity].
    rewrite (proj2 (trimEnd_nil_iff _) W). reflexivity. }
  rewrite E, marker_units. split; [reflexivity|].
  cbn [app substring skipn].
  now rewrite trim_trimEnd, trim_padded, T.
Qed.

(** *** Bodies *)

Lemma drained_streamed (env : send_env) (r : response) (cs : list (list byte)) :
  send_fetch env = Normal r -> ok r = true ->
  body r = Some (Reader cs EndOfStream) ->
  drained env = Normal (decoded (concat cs)).
Proof.
  intros F O B. unfold drained. rewrite F, O, B. cbn.
  now rewrite read_loop_concat.
Qed.

Lemma decode_byte_ascii (d : TextDecoder) (b : byte) :
  machine d = utf8_reset -> (Byte.to_N b <? 128)%N = true ->
  decode_byte d b = (Decoder utf8_reset true, [Byte.to_N b]).
Proof.
  destruct d as [m seen]. cbn. intros -> L.
  apply N.ltb_lt in L.
  unfold decode_byte, utf8_byte, utf8_handler. cbn.
  assert (R : in_range 0 127 (Byte.to_N b) = true).
  { unfold in_range. apply andb_true_intro. split; apply N.leb_le; lia. }
  rewrite R. cbn.
  assert (B : (Byte.to_N b =? 65279)%N = false) by (apply N.eqb_neq; lia).
  rewrite B, andb_false_r. unfold utf16.
  assert (U : (Byte.to_N b <? 65536)%N = true) by (apply N.ltb_lt; lia).
  now rewrite U.
Qed.

(** A body of bytes below 128 decodes to those bytes, and leaves the
    decoder between two characters. *)
Lemma decode_ascii (bs : list byte) :
  forall d, machine d = utf8_reset -> is_ascii bs = true ->
            snd (decode d bs) = code_units bs
            /\ machine (fst (decode d bs)) = utf8_reset.
Proof.
  induction bs as [|b bs IH]; intros d M A; [now split|].
  cbn in A. apply andb_prop in A. destruct A as [A1 A2].
  cbn [decode]. rewrite (decode_byte_ascii d b M A1).
  destruct (IH (Decoder utf8_reset true) eq_refl A2) as [S1 S2].
  destruct (decode (Decoder utf8_reset true) bs) as [d2 s2].
  cbn in *. split; [now rewrite S1 | exact S2].
Qed.

Lemma decode_byte_lead (d : TextDecoder) (b : byte) :
  machine d = utf8_reset -> is_lead_byte b = true ->
  snd (decode_byte d b) = [].
Proof.
  destruct d as [m seen]. cbn. intros -> L.
  destruct b; vm_compute in L; try discriminate L; reflexivity.
Qed.

(** X3: a body [data:<content>] of bytes below 128, with white space
    allowed around the marker and after the content, delivered in any
    chunks, puts exactly [content] (a string with no white space at its
    ends) into the placeholder, which becomes Complete; its time stamp is
    displayed unless the content is empty, in which case the bubble shows
    neither loader, cursor nor time. *)
Theorem X3_frame_round_trip (env : send_env) (w : world) (r : response)
  (cs : list (list byte)) (a b c content : jsstring) :
  guard_passed (ui w) = true ->
  send_fetch env = Normal r -> ok r = true ->
  body r = Some (Reader cs EndOfStream) ->
  is_ascii (concat cs) = true ->
  code_units (concat cs) = a ++ lit "data:" ++ b ++ content ++ c ->
  all_white a = true -> all_white b = true -> all_white c = true ->
  trim content = content ->
  let shown := with_reply content (placeholder env) in
  nth_error (messages (ui (exec (sendMessage env) w)))
            (S (length (messages (ui w)))) = Some shown
  /\ text shown = content
  /\ state_of shown = Complete
  /\ shows_loader shown = false
  /\ shows_cursor shown = false
  /\ shows_time shown = nonempty content.
Proof.
  intros G F O B A U Wa Wb Wc T shown.
  assert (D : drained env = Normal (a ++ lit "data:" ++ b ++ content ++ c)).
  { rewrite (drained_streamed env r cs F O B). unfold decoded.
    now rewrite (proj1 (decode_ascii (concat cs) new_TextDecoder eq_refl A)), U. }
  destruct (@payload_of_frame a b c content Wa Wb Wc T) as [S P].
  split; [|repeat split].
  rewrite (conversation_after_send env w G), (classify_success env D S), P.
  unfold apply_outcome.
  eapply map_by_id_hit; [apply nth_error_placeholder | reflexivity].
Qed.

Lemma X3_frame_round_trip_witness :
  nth_error (messages (ui (exec (sendMessage
     (send_at 100 100 100 (streamed framed_chunks EndOfStream))) typed_hello))) 1
  = Some (with_reply (lit "Hi there")
            (placeholder (send_at 100 100 100 (streamed framed_chunks EndOfStream)))).
Proof.
  exact (proj1 (@X3_frame_round_trip
    (send_at 100 100 100 (streamed framed_chunks EndOfStream)) typed_hello
    (Response 200 (Normal []) (Normal JNull)
       (Some (Reader framed_chunks EndOfStream)))
    framed_chunks [] (lit " ") [10; 10]%N (lit "Hi there")
    eq_refl eq_refl eq_refl eq_refl eq_refl eq_refl eq_refl eq_refl eq_refl
    eq_refl)).
Defined.

(** X4: the decoder is never flushed, so the first byte of a multi-byte
    character arriving last, after a body that ended between characters,
    is dropped without trace: the send ends exactly as without it. *)
Theorem X4_truncated_tail_dropped (env : send_env) (w : world)
  (cs : list (list byte)) (b : byte) :
  machine (fst (decode new_TextDecoder (concat cs))) = utf8_reset ->
  is_lead_byte b = true ->
  decoded (concat (cs ++ [[b]])) = decoded (concat cs)
  /\ sendMessage (with_chunks env (cs ++ [[b]])) w
     = sendMessage (with_chunks env cs) w.
Proof.
  intros M L.
  assert (E : decoded (concat (cs ++ [[b]])) = decoded (concat cs)).
  { unfold decoded. rewrite concat_app. cbn [concat]. rewrite app_nil_r.
    rewrite decode_app.
    destruct (decode new_TextDecoder (concat cs)) as [d1 s1]. cbn in M.
    cbn [decode].
    pose proof (decode_byte_lead d1 b M L) as Z.
    destruct (decode_byte d1 b) as [d2 s2]. cbn in Z. subst s2.
    cbn. now rewrite app_nil_r. }
  split; [exact E|].
  rewrite !sendMessage_eq. f_equal.
  destruct (guard_passed (ui w)); [|reflexivity].
  apply settled_ext; try reflexivity.
  rewrite !drained_with_chunks. now rewrite E.
Qed.

Lemma X4_truncated_tail_dropped_witness :
  machine (fst (decode new_TextDecoder (concat one_chunk))) = utf8_reset /\
  is_lead_byte xe2 = true /\
  sendMessage (with_chunks hi_there_env (one_chunk ++ [[xe2]])) typed_hello
  = sendMessage (with_chunks hi_there_env one_chunk) typed_hello.
Proof.
  split; [reflexivity|]. split; [reflexivity|].
  exact (proj2 (@X4_truncated_tail_dropped hi_there_env typed_hello
                  one_chunk xe2 eq_refl eq_refl)).
Defined.

Lemma went_wrong_is_not_no_response (error : js_error) :
  went_wrong_text error <> no_response_text.
Proof. unfold went_wrong_text, no_response_text. vm_compute. discriminate. Qed.

(** X5: a success answer that has no body ([response.body] is [null], as
    for a 204) is not reported as [No response from server.]: reading the
    body throws, the placeholder is removed and the notice appended last
    carries the engine's TypeError text. *)
Theorem X5_null_body_is_a_failure (env : send_env) (w : world) (r : response) :
  guard_passed (ui w) = true ->
  send_fetch env = Normal r -> ok r = true -> body r = None ->
  let notice := Message (now_error env + 2)
                        (went_wrong_text (Error (send_type_error env))) bot
                        (time_error env) None (Some true) in
  classify env = TransportError (Error (send_type_error env))
  /\ (exists kept, messages (ui (exec (sendMessage env) w)) = kept ++ [notice])
  /\ state_of notice = Failed
  /\ text notice <> no_response_text.
Proof.
  intros G F O B notice.
  assert (D : drained env = Throw (Error (send_type_error env))).
  { unfold drained. now rewrite F, O, B. }
  split; [exact (classify_transport env D)|]. split; [|split].
  - rewrite (conversation_after_send env w G), (classify_transport env D).
    unfold apply_outcome, replace_placeholder. eexists. reflexivity.
  - reflexivity.
  - apply went_wrong_is_not_no_response.
Qed.

Lemma X5_null_body_is_a_failure_witness :
  classify no_content_env
  = TransportError (Error (send_type_error no_content_env)).
Proof.
  exact (proj1 (@X5_null_body_is_a_failure no_content_env typed_hello
    (Response 204 (Normal []) (Normal JNull) None)
    eq_refl eq_refl eq_refl eq_refl)).
Defined.

(** *** What one action does *)

Lemma dispatch_eq (a : action) (w : world) :
  exec (dispatch a) w =
  if negb (truthy (sessionId (ui w))) then
    match a with
    | ClickConnect env =>
        if isConnecting (ui w) then w else exec (startChatSession env) w
    | _ => w
    end
  else
    match a with
    | ClickConnect _ => w
    | ChangeInput value =>
        if isSending (ui w) then w
        else World (Hooks (messages (ui w)) value (isSending (ui w))
                          (isConnecting (ui w)) (sessionId (ui w)))
                   (log w)
    | PressKey e env =>
        if isSending (ui w) then w else exec (handleChatKeyDown e env) w
    | ClickSend env =>
        if send_button_disabled (ui w) then w else exec (sendMessage env) w
    end.
Proof.
  unfold exec, dispatch, bind, get_hooks, setInputMessage, update.
  destruct (negb (truthy (sessionId (ui w)))).
  - destruct a; try reflexivity. now destruct (isConnecting (ui w)).
  - destruct a; try reflexivity.
    + destruct (isSending (ui w)) eqn:S; [reflexivity|]. cbn. now rewrite S.
    + now destruct (isSending (ui w)).
    + now destruct (send_button_disabled (ui w)).
Qed.

Lemma dispatch_cases (a : action) (w : world) :
  exec (dispatch a) w = w
  \/ (exists env,
        a = ClickConnect env /\ truthy (sessionId (ui w)) = false
        /\ isConnecting (ui w) = false
        /\ exec (dispatch a) w = exec (startChatSession env) w)
  \/ (exists value,
        a = ChangeInput value /\ truthy (sessionId (ui w)) = true
        /\ isSending (ui w) = false
        /\ exec (dispatch a) w =
           World (Hooks (messages (ui w)) value (isSending (ui w))
                        (isConnecting (ui w)) (sessionId (ui w)))
                 (log w))
  \/ exec (dispatch a) w = World (ui w) (log w ++ [PreventDefault])
  \/ (exists env l,
        readings a = [now_user env; now_placeholder env; now_error env]
        /\ (l = log w \/ l = log w ++ [PreventDefault])
        /\ guard_passed (ui w) = true /\ isSending (ui w) = false
        /\ exec (dispatch a) w = exec (sendMessage env) (World (ui w) l)).
Proof.
  remember (exec (dispatch a) w) as after eqn:R.
  rewrite dispatch_eq in R.
  destruct (truthy (sessionId (ui w))) eqn:T; cbn [negb] in R.
  - destruct a as [env|value|e env|env]; [now left | | |].
    + destruct (isSending (ui w)) eqn:S; [now left|].
      right; right; left. now exists value.
    + destruct (isSending (ui w)) eqn:S; [now left|].
      unfold exec in R. rewrite handleChatKeyDown_eq in R.
      destruct (is_Enter e && negb (shiftKey e)); [|now left].
      destruct (input_ready (ui w)) eqn:G; [|now (right; right; right; left)].
      destruct (guard_passed (ui w)) eqn:P.
      * right; right; right; right.
        exists env, (log w ++ [PreventDefault]). auto.
      * right; right; right; left.
        rewrite sendMessage_eq in R. cbn [snd ui] in R. now rewrite P in R.
    + unfold send_button_disabled in R.
      destruct (nonempty (trim (inputMessage (ui w)))) eqn:B; [|now left].
      destruct (isSending (ui w)) eqn:S; [now left|]. cbn [negb orb] in R.
      right; right; right; right. exists env, (log w).
      repeat split; auto.
      * unfold guard_passed. now rewrite B, T.
      * now destruct w.
  - destruct a as [env|value|e env|env]; try now left.
    destruct (isConnecting (ui w)) eqn:C; [now left|].
    right; left. now exists env.
Qed.

Lemma exec_startChatSession (env : start_env) (w : world) :
  exec (startChatSession env) w =
  match session_reply env with
  | Normal session_id =>
      World (Hooks [greeting_message env] (inputMessage (ui w))
                   (isSending (ui w)) false session_id)
            (log w ++ [Fetch PostSessionStart])
  | Throw error =>
      World (Hooks (messages (ui w)) (inputMessage (ui w))
                   (isSending (ui w)) false JNull)
            (log w ++ start_failure_log error)
  end.
Proof. unfold exec. now rewrite startChatSession_eq. Qed.

(** *** Nothing is left streaming *)

Lemma apply_outcome_not_streaming (env : send_env) (o : outcome)
  (old : list chat_message) (u : chat_message) :
  Forall (fun msg => flag (isStreaming msg) = false) old ->
  flag (isStreaming u) = false ->
  Forall (fun msg => flag (isStreaming msg) = false)
         (apply_outcome env o (old ++ [u; placeholder env])).
Proof.
  intros Q U.
  assert (M : forall f, (forall msg, flag (isStreaming (f msg)) = false) ->
            Forall (fun msg => flag (isStreaming msg) = false)
                   (map_by_id (botMessagePlaceholderId env) f
                              (old ++ [u; placeholder env]))).
  { intros f H. unfold map_by_id. apply Forall_map. apply Forall_app. split.
    - apply (Forall_impl _ (P := fun msg => flag (isStreaming msg) = false));
        [|exact Q].
      intros m Hm. destruct (id m =? _)%Z; [apply H | exact Hm].
    - constructor; [destruct (id u =? _)%Z; [apply H | exact U]|].
      constructor; [|constructor].
      cbn [placeholder id]. rewrite Z.eqb_refl. apply H. }
  destruct o; unfold apply_outcome; try (apply M; intros msg; reflexivity).
  change (old ++ [u; placeholder env]) with (old ++ [u] ++ [placeholder env]).
  rewrite app_assoc, replace_placeholder_eq.
  apply Forall_app. split; [|now repeat constructor].
  rewrite Forall_forall. intros m I. apply filter_In in I. destruct I as [I _].
  apply in_app_or in I. destruct I as [I|[<-|[]]]; [|exact U].
  rewrite Forall_forall in Q. now apply Q.
Qed.

Lemma dispatch_quiet (a : action) (w : world) :
  quiet (ui w) -> quiet (ui (exec (dispatch a) w)).
Proof.
  intros (S & C & Q).
  destruct (dispatch_cases a w)
    as [E|[(env & _ & _ & _ & E)|[(v & _ & _ & _ & E)|[E|(env & l & _ & _ & G & _ & E)]]]];
    rewrite E.
  - now repeat split.
  - rewrite exec_startChatSession. destruct (session_reply env); cbn.
    + repeat split; auto. now repeat constructor.
    + now repeat split.
  - now repeat split.
  - now repeat split.
  - rewrite (world_after_send env (World (ui w) l) G). cbn.
    repeat split; auto. now apply apply_outcome_not_streaming.
Qed.

Lemma run_quiet (actions : list action) :
  forall w, quiet (ui w) -> quiet (ui (run actions w)).
Proof.
  induction actions as [|a rest IH]; intros w Q; [exact Q|].
  cbn [run]. apply IH. now apply dispatch_quiet.
Qed.

Lemma filter_none (p : chat_message -> bool) (l : list chat_message) :
  Forall (fun msg => p msg = false) l -> filter p l = [].
Proof.
  induction 1 as [|m l H _ IH]; [reflexivity|]. cbn. now rewrite H.
Qed.

(** X6: whatever the user does, once the action is over both latches are
    released and no message of the conversation is left streaming: no
    loader and no cursor is displayed. *)
Theorem X6_nothing_left_streaming (actions : list action) :
  let h := ui (run actions initial_world) in
  isSending h = false /\ isConnecting h = false
  /\ Forall (fun msg => state_of msg = Complete \/ state_of msg = Failed)
            (messages h)
  /\ filter shows_loader (messages h) = []
  /\ filter shows_cursor (messages h) = [].
Proof.
  intros h.
  assert (Q : quiet h).
  { apply run_quiet. repeat split; constructor. }
  destruct Q as (S & C & Q).
  repeat split; auto.
  - apply (Forall_impl _ (P := fun msg => flag (isStreaming msg) = false));
      [|exact Q].
    intros m H. unfold state_of. rewrite H.
    destruct (flag (isError m)); auto.
  - apply filter_none.
    apply (Forall_impl _ (P := fun msg => flag (isStreaming msg) = false));
      [|exact Q].
    intros m H. unfold shows_loader. now rewrite H.
  - apply filter_none.
    apply (Forall_impl _ (P := fun msg => flag (isStreaming msg) = false));
      [|exact Q].
    intros m H. unfold shows_cursor. now rewrite H.
Qed.

(** X7: while the request of a send is in flight exactly one loader is
    displayed, on the placeholder at the end of the conversation, and no
    cursor: no message ever has [isStreaming] set together with a text. *)
Theorem X7_one_loader_in_flight (actions : list action) (env : send_env) :
  let w := run actions initial_world in
  guard_passed (ui w) = true ->
  let shown := messages (ui (exec (sendMessage_prologue env) w)) in
  shown = messages (ui w) ++ [userMessage env (ui w); placeholder env]
  /\ filter shows_loader shown = [placeholder env]
  /\ filter shows_cursor shown = [].
Proof.
  intros w G shown. subst shown.
  rewrite (conversation_at_await env w G).
  assert (Q : quiet (ui w)).
  { apply run_quiet. repeat split; constructor. }
  destruct Q as (_ & _ & Q).
  split; [reflexivity|].
  rewrite !filter_app. split.
  - rewrite filter_none; [reflexivity|].
    apply (Forall_impl _ (P := fun msg => flag (isStreaming msg) = false));
      [|exact Q].
    intros m H. unfold shows_loader. now rewrite H.
  - rewrite filter_none; [reflexivity|].
    apply (Forall_impl _ (P := fun msg => flag (isStreaming msg) = false));
      [|exact Q].
    intros m H. unfold shows_cursor. now rewrite H.
Qed.

Lemma X7_one_loader_in_flight_witness :
  guard_passed (ui (run connect_and_type initial_world)) = true /\
  filter shows_loader
    (messages (ui (exec (sendMessage_prologue hi_there_env)
                        (run connect_and_type initial_world))))
  = [placeholder hi_there_env].
Proof.
  split; [reflexivity|].
  exact (proj1 (proj2
    (X7_one_loader_in_flight connect_and_type hi_there_env eq_refl))).
Defined.

(** *** The session *)

Lemma session_requests_console (env : send_env) :
  session_requests (console_output env) = 0%nat.
Proof.
  unfold console_output. destruct (drained env) as [buffer|reason]; [|reflexivity].
  now destruct (spec_parse None (trim buffer)).
Qed.

Lemma post_sessions_app (l l' : list effect) :
  post_sessions (l ++ l') = post_sessions l ++ post_sessions l'.
Proof.
  induction l as [|x l IH]; [reflexivity|].
  destruct x as [[|]| | | | |]; cbn; now rewrite IH.
Qed.

Lemma post_sessions_console (env : send_env) :
  post_sessions (console_output env) = [].
Proof.
  unfold console_output. destruct (drained env) as [buffer|reason]; [|reflexivity].
  now destruct (spec_parse None (trim buffer)).
Qed.

(** With a session set, an action leaves the session id alone and asks for
    no other session. *)
Lemma dispatch_keeps_session (a : action) (w : world) :
  truthy (sessionId (ui w)) = true ->
  sessionId (ui (exec (dispatch a) w)) = sessionId (ui w)
  /\ session_requests (log (exec (dispatch a) w)) = session_requests (log w).
Proof.
  intros T.
  destruct (dispatch_cases a w)
    as [E|[(env & _ & F & _)|[(v & _ & _ & _ & E)|[E|(env & l & _ & L & G & _ & E)]]]];
    try congruence; rewrite E.
  - now split.
  - now split.
  - split; [reflexivity|]. cbn. rewrite session_requests_app. cbn. lia.
  - rewrite (world_after_send env (World (ui w) l) G). cbn.
    split; [reflexivity|].
    rewrite session_requests_app. cbn.
    rewrite session_requests_app, session_requests_console. cbn.
    destruct L as [-> | ->]; [lia|].
    rewrite session_requests_app. cbn. lia.
Qed.

(** X8: once a session id is set, no sequence of user actions changes it
    or issues another session request: the connect button is no longer
    rendered and nothing else calls [startChatSession]. *)
Theorem X8_session_is_kept (actions : list action) (w : world) :
  truthy (sessionId (ui w)) = true ->
  sessionId (ui (run actions w)) = sessionId (ui w)
  /\ session_requests (log (run actions w)) = session_requests (log w).
Proof.
  revert w. induction actions as [|a rest IH]; intros w T; [now split|].
  cbn [run].
  destruct (dispatch_keeps_session a w T) as [S R].
  destruct (IH (exec (dispatch a) w)) as [S' R']; [now rewrite S|].
  split; congruence.
Qed.

Lemma X8_session_is_kept_witness :
  truthy (sessionId (ui typed_hello)) = true /\
  sessionId (ui (run hasty_actions typed_hello)) = sessionId (ui typed_hello).
Proof.
  split; [reflexivity|].
  exact (proj1 (X8_session_is_kept hasty_actions typed_hello eq_refl)).
Defined.

(** Either no message request was issued yet, or a session is set and
    every message request carried its id. *)
Lemma dispatch_posts_session (a : action) (w : world) :
  post_sessions (log w) = []
  \/ (truthy (sessionId (ui w)) = true
      /\ Forall (eq (sessionId (ui w))) (post_sessions (log w))) ->
  post_sessions (log (exec (dispatch a) w)) = []
  \/ (truthy (sessionId (ui (exec (dispatch a) w))) = true
      /\ Forall (eq (sessionId (ui (exec (dispatch a) w))))
                (post_sessions (log (exec (dispatch a) w)))).
Proof.
  intros I.
  destruct (dispatch_cases a w)
    as [E|[(env & _ & F & _ & E)|[(v & _ & _ & _ & E)|[E|(env & l & _ & L & G & _ & E)]]]];
    rewrite E.
  - exact I.
  - left. destruct I as [I|[I _]]; [|congruence].
    rewrite exec_startChatSession.
    destruct (session_reply env); cbn; rewrite post_sessions_app, I; reflexivity.
  - exact I.
  - cbn. rewrite post_sessions_app. cbn. now rewrite app_nil_r.
  - right. rewrite (world_after_send env (World (ui w) l) G). cbn.
    split; [exact (session_is_set (World (ui w) l) G)|].
    rewrite post_sessions_app. cbn.
    rewrite post_sessions_app, post_sessions_console. cbn.
    apply Forall_app. split; [|now repeat constructor].
    assert (P : post_sessions l = post_sessions (log w)).
    { destruct L as [-> | ->]; [reflexivity|].
      rewrite post_sessions_app. cbn. apply app_nil_r. }
    rewrite P. destruct I as [I|[_ I]]; [rewrite I; constructor | exact I].
Qed.

(** X9: every message request the component ever issues carries the
    session id that is set at the time, and that id is truthy: no message
    is posted without a session, and none under a stale id. *)
Theorem X9_posts_carry_the_session (actions : list action) :
  let w := run actions initial_world in
  Forall (fun session => session = sessionId (ui w) /\ truthy session = true)
         (post_sessions (log w))
  /\ length (post_sessions (log w)) = posts (log w).
Proof.
  intros w.
  assert (I : post_sessions (log w) = []
              \/ (truthy (sessionId (ui w)) = true
                  /\ Forall (eq (sessionId (ui w))) (post_sessions (log w)))).
  { subst w. generalize initial_world, (or_introl eq_refl :
      post_sessions (log initial_world) = []
      \/ (truthy (sessionId (ui initial_world)) = true
          /\ Forall (eq (sessionId (ui initial_world)))
                    (post_sessions (log initial_world)))).
    induction actions as [|a rest IH]; intros w0 I0; [exact I0|].
    cbn [run]. apply IH. now apply dispatch_posts_session. }
  split.
  - destruct I as [-> | [T I]]; [constructor|].
    apply (Forall_impl _ (P := eq (sessionId (ui w)))); [|exact I].
    intros s <-. now split.
  - generalize (log w). intros l.
    induction l as [|x l IH]; [reflexivity|].
    destruct x as [[|]| | | | |]; cbn; now rewrite ?IH.
Qed.

(** *** The history *)

Lemma map_by_id_fresh pid (f : chat_message -> chat_message)
  (l : list chat_message) :
  ~ In pid (ids l) -> map_by_id pid f l = l.
Proof.
  unfold ids, map_by_id. induction l as [|m l IH]; cbn; intros H; [reflexivity|].
  destruct (Z.eqb_spec (id m) pid) as [E|E]; [exfalso; apply H; now left|].
  f_equal. apply IH. intros I. apply H. now right.
Qed.

(** With the placeholder's id carried by no other message, an outcome is
    applied to the placeholder alone. *)
Lemma send_appends (env : send_env) (o : outcome) (old : list chat_message)
  (u : chat_message) :
  ~ In (botMessagePlaceholderId env) (ids old) ->
  id u <> botMessagePlaceholderId env ->
  exists last,
    apply_outcome env o (old ++ [u; placeholder env]) = old ++ [u; last]
    /\ sender last = bot
    /\ (state_of last = Complete \/ state_of last = Failed)
    /\ (id last = botMessagePlaceholderId env
        \/ id last = (now_error env + 2)%Z).
Proof.
  intros F U.
  assert (M : forall f,
            map_by_id (botMessagePlaceholderId env) f (old ++ [u; placeholder env])
            = old ++ [u; f (placeholder env)]).
  { intros f. unfold map_by_id. rewrite map_app.
    fold (map_by_id (botMessagePlaceholderId env) f old).
    rewrite (map_by_id_fresh _ f old F). cbn.
    now rewrite (proj2 (Z.eqb_neq _ _) U), Z.eqb_refl. }
  destruct o as [detail|payload| |]; unfold apply_outcome.
  - eexists. split; [|split; [|split]].
    + change (old ++ [u; placeholder env]) with (old ++ [u] ++ [placeholder env]).
      rewrite app_assoc, replace_placeholder_eq, filter_keeps_others.
      * rewrite <- app_assoc. reflexivity.
      * unfold ids. rewrite map_app, in_app_iff. intros [I|[I|[]]]; auto.
    + reflexivity.
    + now right.
    + now right.
  - exists (with_reply payload (placeholder env)). rewrite M. now repeat split; auto.
  - exists (with_failure malformed_text (placeholder env)). rewrite M.
    now repeat split; auto.
  - exists (with_failure no_response_text (placeholder env)). rewrite M.
    now repeat split; auto.
Qed.

(** X10: when no message of the conversation carries the id the placeholder
    gets, and the clock did not give that id to the User message, a send
    that passed the guard leaves the earlier conversation untouched and
    appends exactly two messages, whatever the outcome: the User message,
    then one Bot message in a terminal state, Complete or Error. *)
Theorem X10_send_appends_two (env : send_env) (w : world) :
  guard_passed (ui w) = true ->
  ~ In (botMessagePlaceholderId env) (ids (messages (ui w))) ->
  now_user env <> botMessagePlaceholderId env ->
  exists last,
    messages (ui (exec (sendMessage env) w))
    = messages (ui w) ++ [userMessage env (ui w); last]
    /\ sender last = bot
    /\ (state_of last = Complete \/ state_of last = Failed)
    /\ (id last = botMessagePlaceholderId env
        \/ id last = (now_error env + 2)%Z).
Proof.
  intros G F U. rewrite (conversation_after_send env w G).
  now apply send_appends.
Qed.

Lemma X10_send_appends_two_witness :
  exists last,
    messages (ui (exec (sendMessage frozen_clock_failure) typed_hello))
    = messages (ui typed_hello)
      ++ [userMessage frozen_clock_failure (ui typed_hello); last]
    /\ sender last = bot
    /\ (state_of last = Complete \/ state_of last = Failed)
    /\ (id last = botMessagePlaceholderId frozen_clock_failure
        \/ id last = (now_error frozen_clock_failure + 2)%Z).
Proof.
  apply (X10_send_appends_two frozen_clock_failure typed_hello eq_refl).
  - cbn. tauto.
  - vm_compute. discriminate.
Defined.

Lemma below_not_in (t pid : Z) (l : list chat_message) :
  below t l -> (t <= pid)%Z -> ~ In pid (ids l).
Proof.
  unfold below, ids. intros B L I. apply in_map_iff in I.
  destruct I as [m [E I]]. rewrite Forall_forall in B.
  specialize (B m I). lia.
Qed.

(** One action under a paced clock: the ids stay increasing and bounded,
    and with a session set the conversation is only extended. *)
Lemma dispatch_paced (a : action) (rest : list action) (last : Z) (w : world) :
  increasing (messages (ui w)) -> below (last + 3) (messages (ui w)) ->
  paced last (a :: rest) ->
  exists last',
    increasing (messages (ui (exec (dispatch a) w)))
    /\ below (last' + 3) (messages (ui (exec (dispatch a) w)))
    /\ paced last' rest
    /\ (truthy (sessionId (ui w)) = true ->
        exists suffix,
          messages (ui (exec (dispatch a) w)) = messages (ui w) ++ suffix).
Proof.
  intros S B P.
  assert (K : exists last', (last <= last')%Z /\ paced last' rest).
  { destruct a as [env|value|e env|env]; cbn [paced] in P.
    - exists (now_greeting env). split; [lia | tauto].
    - now exists last.
    - exists (now_error env). split; [lia | tauto].
    - exists (now_error env). split; [lia | tauto]. }
  assert (Same : messages (ui (exec (dispatch a) w)) = messages (ui w) ->
          exists last',
            increasing (messages (ui (exec (dispatch a) w)))
            /\ below (last' + 3) (messages (ui (exec (dispatch a) w)))
            /\ paced last' rest
            /\ (truthy (sessionId (ui w)) = true ->
                exists suffix,
                  messages (ui (exec (dispatch a) w)) = messages (ui w) ++ suffix)).
  { intros E. destruct K as [last' [L P']]. exists last'. rewrite E.
    split; [exact S|]. split; [|split; [exact P'|]].
    - apply (below_mono (t := (last + 3)%Z)); [lia | exact B].
    - intros _. exists []. now rewrite app_nil_r. }
  destruct (dispatch_cases a w)
    as [E|[(env & A & F & _ & E)|[(v & _ & _ & _ & E)|[E|(env & l & R & _ & G & _ & E)]]]].
  - apply Same. now rewrite E.
  - subst a. cbn [paced] in P. destruct P as [L P'].
    exists (now_greeting env). rewrite E, exec_startChatSession.
    destruct (session_reply env); cbn [ui messages].
    + split; [unfold increasing; cbn; repeat constructor|].
      split; [repeat constructor; cbn; lia|].
      split; [exact P' | congruence].
    + split; [exact S|].
      split; [apply (below_mono (t := (last + 3)%Z)); [lia | exact B]|].
      split; [exact P' | congruence].
  - apply Same. now rewrite E.
  - apply Same. now rewrite E.
  - assert ((last + 3 <= now_user env)%Z
            /\ (now_user env <= now_placeholder env)%Z
            /\ (now_placeholder env <= now_error env)%Z
            /\ paced (now_error env) rest) as (L0 & L1 & L2 & P').
    { destruct a as [env'|value|e env'|env']; cbn [readings] in R;
        try discriminate; injection R as R1 R2 R3; cbn [paced] in P;
        rewrite R1, R2, R3 in P; exact P. }
    assert (B0 : below (now_user env) (messages (ui w)))
      by (apply (below_mono (t := (last + 3)%Z)); [lia | exact B]).
    exists (now_error env). rewrite E.
    rewrite (conversation_after_send env (World (ui w) l) G). cbn [ui].
    destruct (send_keeps_increasing env (classify env)
                (old := messages (ui w)) (userMessage env (ui w)))
      as [S' B']; try assumption; try reflexivity.
    split; [exact S'|]. split; [exact B'|]. split; [exact P'|].
    intros _.
    destruct (@send_appends env (classify env) (messages (ui w))
                (userMessage env (ui w))) as [x [X _]].
    + apply (below_not_in _ _ _ B0). unfold botMessagePlaceholderId. lia.
    + unfold botMessagePlaceholderId. cbn. lia.
    + rewrite X. now exists [userMessage env (ui w); x].
Qed.

Lemma run_paced_extends (actions : list action) :
  forall (last : Z) (w : world),
    increasing (messages (ui w)) -> below (last + 3) (messages (ui w)) ->
    truthy (sessionId (ui w)) = true ->
    paced last actions ->
    exists suffix, messages (ui (run actions w)) = messages (ui w) ++ suffix.
Proof.
  induction actions as [|a rest IH]; intros last w S B T P.
  - exists []. now rewrite app_nil_r.
  - cbn [run].
    destruct (dispatch_paced a rest last w S B P) as (last' & S' & B' & P' & X).
    destruct (X T) as [s1 E1].
    destruct (IH last' (exec (dispatch a) w) S' B') as [s2 E2];
      [|exact P'|].
    + now rewrite (proj1 (dispatch_keeps_session a w T)).
    + exists (s1 ++ s2). now rewrite E2, E1, app_assoc.
Qed.

Lemma run_paced_invariant (before : list action) :
  forall (later : list action) (last : Z) (w : world),
    increasing (messages (ui w)) -> below (last + 3) (messages (ui w)) ->
    paced last (before ++ later) ->
    exists last',
      increasing (messages (ui (run before w)))
      /\ below (last' + 3) (messages (ui (run before w)))
      /\ paced last' later.
Proof.
  induction before as [|a rest IH]; intros later last w S B P.
  - now exists last.
  - cbn [run]. cbn [app] in P.
    destruct (dispatch_paced a (rest ++ later) last w S B P)
      as (last' & S' & B' & P' & _).
    exact (IH later last' _ S' B' P').
Qed.

Lemma run_app (before later : list action) (w : world) :
  run (before ++ later) w = run later (run before w).
Proof.
  revert w. induction before as [|a rest IH]; intros w; [reflexivity|].
  cbn. apply IH.
Qed.

(** X11: under a paced clock (never backwards within an action, at least
    three milliseconds from one action to the next) and once a session is
    set, the conversation only grows at its end: what the user saw after
    some actions is, message for message, the beginning of what is there
    after any further actions. *)
Theorem X11_history_is_kept (before later : list action) (last : Z) :
  paced last (before ++ later) ->
  truthy (sessionId (ui (run before initial_world))) = true ->
  exists suffix,
    messages (ui (run (before ++ later) initial_world))
    = messages (ui (run before initial_world)) ++ suffix.
Proof.
  intros P T. rewrite run_app.
  destruct (@run_paced_invariant before later last initial_world)
    as (last' & S & B & P'); [constructor | constructor | exact P|].
  exact (@run_paced_extends later last' _ S B T P').
Qed.

Lemma X11_history_is_kept_witness :
  paced 0 (connect_and_type ++ two_sends) /\
  truthy (sessionId (ui (run connect_and_type initial_world))) = true /\
  exists suffix,
    messages (ui (run (connect_and_type ++ two_sends) initial_world))
    = messages (ui (run connect_and_type initial_world)) ++ suffix.
Proof.
  assert (P : paced 0 (connect_and_type ++ two_sends)) by (cbn; lia).
  split; [exact P|]. split; [reflexivity|].
  exact (@X11_history_is_kept connect_and_type two_sends 0 P eq_refl).
Defined.

(** *** Refusals of the backend *)

(** X12: an answer with a status outside 200..299 is never read as a frame,
    whatever its body stream holds: the send ends as a transport failure
    whose notice, appended last, spells out the status and the text of the
    answer. *)
Theorem X12_bad_status_is_shown (env : send_env) (w : world) (r : response)
  (errorText : jsstring) :
  guard_passed (ui w) = true ->
  send_fetch env = Normal r -> ok r = false ->
  text_result r = Normal errorText ->
  let notice :=
    Message (now_error env + 2)
            (lit "Something went wrong: "
             ++ (lit "HTTP error! status: " ++ number_toString (status r)
                 ++ lit ", message: " ++ errorText)
             ++ lit ". Please try again.")
            bot (time_error env) None (Some true) in
  classify env = TransportError (http_error r errorText)
  /\ (exists kept, messages (ui (exec (sendMessage env) w)) = kept ++ [notice])
  /\ state_of notice = Failed
  /\ shows_time notice = true.
Proof.
  intros G F O X notice.
  assert (D : drained env = Throw (http_error r errorText)).
  { unfold drained. now rewrite F, O, X. }
  split; [exact (classify_transport env D)|]. split; [|split].
  - rewrite (conversation_after_send env w G), (classify_transport env D).
    unfold apply_outcome, replace_placeholder. eexists. reflexivity.
  - reflexivity.
  - reflexivity.
Qed.

Lemma X12_bad_status_is_shown_witness :
  exists kept,
    messages (ui (exec (sendMessage unavailable_env) typed_hello))
    = kept ++ [Message 102
                 (lit "Something went wrong: HTTP error! status: 503, message: busy. Please try again.")
                 bot (lit "10:00:01") None (Some true)].
Proof.
  exact (proj1 (proj2 (X12_bad_status_is_shown unavailable_env typed_hello
    (Response 503 (Normal (lit "busy")) (Normal JNull)
       (Some (Reader [bytes_of "data: ignored"] EndOfStream)))
    (lit "busy") eq_refl eq_refl eq_refl eq_refl))).
Defined.

(** X13: a failed attempt to connect leaves the client as it was, the
    connect button enabled again; a second click issues a second session
    request, and if that one is answered with a session id, the session is
    set and the greeting shown. *)
Theorem X13_connect_can_be_retried (env1 env2 : start_env) (w : world)
  (error : js_error) :
  truthy (sessionId (ui w)) = false -> isConnecting (ui w) = false ->
  session_reply env1 = Throw error ->
  let w1 := exec (dispatch (ClickConnect env1)) w in
  let w2 := exec (dispatch (ClickConnect env2)) w1 in
  truthy (sessionId (ui w1)) = false
  /\ isConnecting (ui w1) = false
  /\ messages (ui w1) = messages (ui w)
  /\ inputMessage (ui w1) = inputMessage (ui w)
  /\ session_requests (log w2) = (session_requests (log w) + 2)%nat
  /\ (forall session_id,
        session_reply env2 = Normal session_id ->
        sessionId (ui w2) = session_id
        /\ messages (ui w2) = [greeting_message env2]).
Proof.
  intros T C R w1 w2.
  assert (E1 : w1 = World (Hooks (messages (ui w)) (inputMessage (ui w))
                                 (isSending (ui w)) false JNull)
                          (log w ++ start_failure_log error)).
  { subst w1. rewrite dispatch_eq, T, C. cbn [negb].
    now rewrite exec_startChatSession, R. }
  assert (E2 : w2 = exec (startChatSession env2) w1).
  { subst w2. rewrite dispatch_eq. now rewrite E1. }
  rewrite E2, exec_startChatSession. rewrite E1.
  do 4 (split; [reflexivity|]). split.
  - destruct (session_reply env2); cbn;
      rewrite !session_requests_app; cbn; lia.
  - intros session_id V. rewrite V. now split.
Qed.

Lemma X13_connect_can_be_retried_witness :
  truthy (sessionId (ui disconnected)) = false /\
  session_reply start_refused = Throw failed_to_fetch /\
  sessionId (ui (exec (dispatch (ClickConnect start_ok))
                      (exec (dispatch (ClickConnect start_refused))
                            disconnected))) = session_s1.
Proof.
  split; [reflexivity|]. split; [reflexivity|].
  pose proof (X13_connect_can_be_retried start_refused start_ok disconnected
                failed_to_fetch eq_refl eq_refl eq_refl) as H.
  cbv zeta in H. destruct H as (_ & _ & _ & _ & _ & H).
  exact (proj1 (H session_s1 eq_refl)).
Defined.

(** *** The two ways to send *)

Lemma ui_sendMessage_log (env : send_env) (h : hooks) (l l' : list effect) :
  ui (exec (sendMessage env) (World h l)) = ui (exec (sendMessage env) (World h l')).
Proof.
  rewrite !exec_sendMessage. cbn [ui].
  now destruct (guard_passed h).
Qed.

(** X14: pressing Enter without Shift in the textarea and clicking the send
    button do the same to the client state, in every state: both send
    under the same conditions, and the same messages result. *)
Theorem X14_enter_is_the_button (e : key_event) (env : send_env) (w : world) :
  is_Enter e = true -> shiftKey e = false ->
  ui (exec (dispatch (PressKey e env)) w) = ui (exec (dispatch (ClickSend env)) w).
Proof.
  intros K S. rewrite !dispatch_eq.
  destruct (truthy (sessionId (ui w))) eqn:T; cbn [negb]; [|reflexivity].
  unfold send_button_disabled, exec at 1.
  rewrite handleChatKeyDown_eq, K, S. cbn [negb andb]. unfold input_ready.
  destruct (isSending (ui w)) eqn:I; [now rewrite orb_true_r|].
  destruct (nonempty (trim (inputMessage (ui w)))); cbn [negb orb andb snd];
    [|reflexivity].
  change (snd (sendMessage env (World (ui w) (log w ++ [PreventDefault]))))
    with (exec (sendMessage env) (World (ui w) (log w ++ [PreventDefault]))).
  rewrite (ui_sendMessage_log env (ui w) _ (log w)). now destruct w.
Qed.

Lemma X14_enter_is_the_button_witness :
  ui (exec (dispatch (PressKey (enter_key false true) hi_there_env)) typed_hello)
  = ui (exec (dispatch (ClickSend hi_there_env)) typed_hello).
Proof.
  exact (X14_enter_is_the_button (enter_key false true) hi_there_env typed_hello
           eq_refl eq_refl).
Defined.

(** *** The reachable worlds *)

Lemma dispatch_keeps_latch_released (a : action) (w : world) :
  isSending (ui w) = false -> isSending (ui (exec (dispatch a) w)) = false.
Proof.
  intros S.
  destruct (dispatch_cases a w)
    as [E|[(env & _ & _ & _ & E)|[(v & _ & _ & _ & E)|[E|(env & l & _ & _ & G & _ & E)]]]];
    rewrite E; try exact S.
  - rewrite exec_startChatSession. now destruct (session_reply env).
  - now rewrite (world_after_send env (World (ui w) l) G).
Qed.

(** While the latch is set the input is empty and a session id is set: the
    latch is set together with the clearing of the input, past the guard,
    and the textarea is disabled until it is released. *)
Lemma reachable_latch (w : world) :
  reachable w ->
  isSending (ui w) = true ->
  inputMessage (ui w) = [] /\ truthy (sessionId (ui w)) = true.
Proof.
  induction 1 as [|a w R IH|w R IH T C|w R IH|env w R IH|env ci s w R IH];
    intros S.
  - discriminate S.
  - destruct (isSending (ui w)) eqn:S0.
    + destruct (IH eq_refl) as [I T].
      unfold exec in *. rewrite (inert_while_sending a w S0 T) in *.
      now split.
    + rewrite (dispatch_keeps_latch_released a w S0) in S. discriminate S.
  - apply IH. exact S.
  - apply IH. exact S.
  - rewrite exec_prologue in *.
    destruct (guard_passed (ui w)) eqn:G; [|now apply IH].
    split; [reflexivity|]. exact (session_is_set w G).
  - unfold exec in S. rewrite sendMessage_exchange_eq in S. discriminate S.
Qed.

Lemma reachable_run (actions : list action) :
  forall w, reachable w -> reachable (run actions w).
Proof.
  induction actions as [|a rest IH]; intros w R; [exact R|].
  cbn [run]. apply IH. now constructor.
Qed.

(** C5: in every world the component passes through, [sendMessage] is a
    no-op that leaves the whole client state as it is (conversation, input
    text, latch, and nothing is requested) whenever the input is empty or
    white space only, or no session id is set, or a send is outstanding;
    and so is a click on the send button. *)
Theorem C5_send_is_a_no_op (env : send_env) (w : world) :
  reachable w ->
  nonempty (trim (inputMessage (ui w))) = false
  \/ truthy (sessionId (ui w)) = false
  \/ isSending (ui w) = true ->
  sendMessage env w = (Normal tt, w)
  /\ exec (dispatch (ClickSend env)) w = w.
Proof.
  intros R H.
  assert (B : nonempty (trim (inputMessage (ui w))) = false
              \/ truthy (sessionId (ui w)) = false).
  { destruct H as [H|[H|H]]; [now left | now right |].
    left. now rewrite (proj1 (reachable_latch w R H)). }
  split.
  - rewrite sendMessage_eq. now rewrite (guard_refuses _ B).
  - rewrite dispatch_eq.
    destruct (negb (truthy (sessionId (ui w)))); [reflexivity|].
    destruct (send_button_disabled (ui w)); [reflexivity|].
    unfold exec. rewrite sendMessage_eq. now rewrite (guard_refuses _ B).
Qed.

Lemma C5_send_is_a_no_op_witness :
  reachable (exec (sendMessage_prologue hi_there_env)
                  (run connect_and_type initial_world))
  /\ isSending (ui (exec (sendMessage_prologue hi_there_env)
                         (run connect_and_type initial_world))) = true
  /\ sendMessage frozen_clock_reply
       (exec (sendMessage_prologue hi_there_env)
             (run connect_and_type initial_world))
     = (Normal tt, exec (sendMessage_prologue hi_there_env)
                        (run connect_and_type initial_world)).
Proof.
  assert (R : reachable (exec (sendMessage_prologue hi_there_env)
                              (run connect_and_type initial_world))).
  { apply reach_await. apply reachable_run. apply reach_initial. }
  split; [exact R|]. split; [reflexivity|].
  exact (proj1 (C5_send_is_a_no_op frozen_clock_reply _ R
                  (or_intror (or_intror eq_refl)))).
Defined.

(** *** An answer without a body *)

(** C1 at a 204 answer, after connecting and typing [a]: [fetch] resolved,
    the status is a success and nothing was thrown by the call; with no
    exception and nothing in the body the decision table says
    [EmptyResponse], but [response.body.getReader()] throws on the [null]
    body and the conversation is updated as for [TransportError], not as
    for [EmptyResponse]. *)
Theorem C1_null_body_divergence :
  let w := run connect_and_type initial_world in
  let pending := messages (ui w)
                 ++ [userMessage no_content_env (ui w);
                     placeholder no_content_env] in
  let conversation := messages (ui (exec (sendMessage no_content_env) w)) in
  reachable w
  /\ guard_passed (ui w) = true
  /\ (exists r, send_fetch no_content_env = Normal r
                /\ ok r = true /\ body r = None)
  /\ spec_parse None (trim []) = EmptyResponse
  /\ conversation
     = apply_outcome no_content_env
         (TransportError (Error (send_type_error no_content_env))) pending
  /\ conversation <> apply_outcome no_content_env EmptyResponse pending.
Proof.
  split; [apply reachable_run; apply reach_initial|].
  split; [reflexivity|].
  split; [eexists; repeat split|]. split; [reflexivity|].
  split; [reflexivity|]. vm_compute. discriminate.
Qed.

(** C4 at a 204 answer, after connecting and typing [a]: the call returned
    with a success status and there is nothing in the body, yet the
    placeholder is not rewritten in place with [No response from server.]:
    no message with its id is left, and its position holds a new message
    with another id and the TypeError text. *)
Theorem C4_null_body_divergence :
  let w := run connect_and_type initial_world in
  let after := messages (ui (exec (sendMessage no_content_env) w)) in
  let position := S (length (messages (ui w))) in
  reachable w
  /\ guard_passed (ui w) = true
  /\ (exists r, send_fetch no_content_env = Normal r
                /\ ok r = true /\ body r = None)
  /\ nth_error after position
     = Some (Message 102
               (lit "Something went wrong: Cannot read properties of null (reading 'getReader'). Please try again.")
               bot (lit "10:00:01") None (Some true))
  /\ nth_error after position
     <> Some (with_failure no_response_text (placeholder no_content_env))
  /\ ~ In (id (placeholder no_content_env)) (ids after).
Proof.
  split; [apply reachable_run; apply reach_initial|].
  split; [reflexivity|].
  split; [eexists; repeat split|]. split; [reflexivity|].
  split; [vm_compute; discriminate|].
  vm_compute. intros [H|[H|[H|[]]]]; discriminate H.
Qed.
